(** * File organizer pipeline: classify, move, log

    A shallow embedding of the classification-and-placement pipeline of
    [sample.py] (functions [clean_category], [classify_file], [move_file],
    [log_report], the three-node graph and the handler of the start button
    that drives it: the check of the folder, the loop over its regular
    files and the summary of each file).

    Conventions of the model.
    - A Python [str] is a list of Unicode code points ([ustring]).
    - [str.lower] and [str.isspace] are parameters of the development
      ([str_lower], [isspace]); the few facts used about them are stated as
      hypotheses where they are needed and hold of Python's functions.
    - [os.path] is [posixpath] (separator '/').
    - The file system is a store from path spellings to nodes.  Two
      spellings are two entries: '.', '..', repeated or trailing separators,
      symbolic links and permissions are not interpreted.
    - The language model is an environment function from the calls made
      so far and the prompt to a reply, or to a failure; the content of a
      reply is text.
    - Exceptions are values: every stage returns an outcome together with
      the record and the world as they are when it returns or raises. *)

From Stdlib Require Import List NArith ZArith String Ascii Bool Lia.
Import ListNotations.

Local Open Scope N_scope.

(** ** Strings *)

Definition ustring := list N.

(** A literal of the source, as code points. *)
Definition u (s : string) : ustring := map N_of_ascii (list_ascii_of_string s).

Fixpoint ueqb (a b : ustring) : bool :=
  match a, b with
  | [], [] => true
  | x :: a', y :: b' => N.eqb x y && ueqb a' b'
  | _, _ => false
  end.

Definition is_empty (s : ustring) : bool :=
  match s with [] => true | _ => false end.

(** [s.startswith(p)] *)
Fixpoint startswith (p s : ustring) : bool :=
  match p, s with
  | [], _ => true
  | x :: p', y :: s' => N.eqb x y && startswith p' s'
  | _ :: _, [] => false
  end.

(** [s.endswith(p)] *)
Definition endswith (p s : ustring) : bool := startswith (rev p) (rev s).

(** [s.lstrip(...)], [s.rstrip(...)], [s.strip(...)] for a class of
    characters given by its membership test. *)
Fixpoint lstrip_by (f : N -> bool) (s : ustring) : ustring :=
  match s with
  | [] => []
  | c :: t => if f c then lstrip_by f t else s
  end.

Definition rstrip_by (f : N -> bool) (s : ustring) : ustring :=
  rev (lstrip_by f (rev s)).

Definition strip_by (f : N -> bool) (s : ustring) : ustring :=
  rstrip_by f (lstrip_by f s).

(** [s.split(sep)] for a one-character separator: never the empty list. *)
Fixpoint split (sep : N) (s : ustring) : list ustring :=
  match s with
  | [] => [[]]
  | c :: t =>
      if N.eqb c sep then [] :: split sep t
      else match split sep t with
           | h :: r => (c :: h) :: r
           | [] => [[c]]
           end
  end.

(** [l[-1]] on the result of [split]. *)
Definition last_piece (l : list ustring) : ustring := last l [].

(** [s.rfind(c)]: the highest index of [c], or -1. *)
Fixpoint rfind (c : N) (s : ustring) : Z :=
  match s with
  | [] => (-1)%Z
  | x :: t =>
      let r := rfind c t in
      if (0 <=? r)%Z then (r + 1)%Z
      else if N.eqb x c then 0%Z else (-1)%Z
  end.

(** [s[:i]] and [s[i:]] for [0 <= i]. *)
Definition slice_to (i : Z) (s : ustring) : ustring := firstn (Z.to_nat i) s.
Definition slice_from (i : Z) (s : ustring) : ustring := skipn (Z.to_nat i) s.

(** ** posixpath *)

Definition sep : N := 47.  (* '/' *)
Definition dot : N := 46.  (* '.' *)

Definition is_sep (c : N) : bool := N.eqb c sep.

(** [head != sep * len(head)] *)
Definition all_seps (s : ustring) : bool := forallb is_sep s.

(** [posixpath.split]: [(head, tail)]. *)
Definition path_split (p : ustring) : ustring * ustring :=
  let i := (rfind sep p + 1)%Z in
  let head := slice_to i p in
  let tail := slice_from i p in
  let head :=
    if negb (is_empty head) && negb (all_seps head)
    then rstrip_by is_sep head else head in
  (head, tail).

(** [os.path.basename] *)
Definition basename (p : ustring) : ustring :=
  let i := (rfind sep p + 1)%Z in
  slice_from i p.

(** [os.path.dirname] *)
Definition dirname (p : ustring) : ustring :=
  let i := (rfind sep p + 1)%Z in
  let head := slice_to i p in
  if negb (is_empty head) && negb (all_seps head)
  then rstrip_by is_sep head else head.

(** [os.path.join(a, b)] *)
Definition join (a b : ustring) : ustring :=
  if startswith [sep] b then b
  else if is_empty a || endswith [sep] a then a ++ b
  else a ++ [sep] ++ b.

(** The number of characters of a path that are not separators. *)
Definition weight (s : ustring) : nat :=
  List.length (filter (fun c => negb (is_sep c)) s).

(** ** The extension table of [classify_file] *)

Definition mapping : list (ustring * ustring) :=
  map (fun kv => (u (fst kv), u (snd kv)))
  [ ("pdf", "documents"); ("doc", "documents"); ("docx", "documents");
    ("txt", "documents"); ("md", "documents"); ("rtf", "documents");
    ("epub", "documents");
    ("png", "images"); ("jpg", "images"); ("jpeg", "images");
    ("gif", "images"); ("svg", "images"); ("webp", "images");
    ("mp4", "videos"); ("mkv", "videos"); ("mov", "videos");
    ("avi", "videos"); ("wmv", "videos"); ("webm", "videos");
    ("mp3", "audio"); ("wav", "audio"); ("aac", "audio");
    ("ogg", "audio"); ("flac", "audio");
    ("zip", "archives"); ("rar", "archives"); ("tar", "archives");
    ("gz", "archives"); ("7z", "archives");
    ("py", "code"); ("js", "code"); ("ts", "code"); ("html", "code");
    ("css", "code"); ("java", "code"); ("c", "code"); ("cpp", "code");
    ("cs", "code"); ("rb", "code"); ("php", "code"); ("swift", "code");
    ("go", "code"); ("rs", "code"); ("kt", "code"); ("sh", "code");
    ("bat", "code");
    ("csv", "data"); ("xlsx", "spreadsheets"); ("xls", "spreadsheets");
    ("ods", "spreadsheets"); ("json", "data"); ("xml", "data");
    ("yaml", "data"); ("yml", "data");
    ("exe", "applications"); ("dll", "system"); ("bin", "binaries");
    ("iso", "disk_images") ]%string.

(** [mapping[k]] when [k in mapping]. *)
Fixpoint dict_get (d : list (ustring * ustring)) (k : ustring) : option ustring :=
  match d with
  | [] => None
  | (k', v) :: d' => if ueqb k k' then Some v else dict_get d' k
  end.

(** The character class [a-z0-9_-] of the pattern in [clean_category]. *)
Definition allowed (c : N) : bool :=
  ((97 <=? c) && (c <=? 122)) || ((48 <=? c) && (c <=? 57))
  || (c =? 95) || (c =? 45).

(** A category token: not empty, and over [a-z0-9_-] only. *)
Definition is_token (v : ustring) : bool :=
  negb (is_empty v) && forallb allowed v.

(** ** The record threaded through the graph, and the world around it *)

(** [FileState] *)
Record FileState := mkState {
  filepath : ustring;
  category : ustring;
  new_path : ustring;
  logs : list ustring
}.

Inductive node := File (content : list N) | Dir.

(** The file system: what each path spelling names, if anything. *)
Definition store := ustring -> option node.

Record World := mkWorld {
  fs : store;
  (** the service: calls made so far, prompt, and its reply ([None] when the
      call raises) *)
  llm_reply : list ustring -> ustring -> option ustring;
  (** the prompts sent so far, oldest first *)
  llm_calls : list ustring
}.

Inductive exn :=
| LLMError            (* whatever [llm.invoke] raises *)
| FileNotFoundError
| FileExistsError
| NotADirectoryError
| ShutilError         (* [shutil.Error] *)
| RecursionError.

Inductive result (A : Type) :=
| Ok (a : A)
| Raise (e : exn).
Arguments Ok {A} a.
Arguments Raise {A} e.

(** A computation reads and updates the record and the world, and returns
    or raises. *)
Definition M (A : Type) : Type := FileState -> World -> result A * FileState * World.

Definition ret {A} (a : A) : M A := fun st w => (Ok a, st, w).

Definition bind {A B} (m : M A) (k : A -> M B) : M B :=
  fun st w =>
    match m st w with
    | (Ok a, st', w') => k a st' w'
    | (Raise e, st', w') => (Raise e, st', w')
    end.

Notation "x <- m ;; k" := (bind m (fun x => k))
  (at level 61, m at next level, right associativity).
Notation "m ;; k" := (bind m (fun _ => k))
  (at level 61, right associativity).

Definition get_state : M FileState := fun st w => (Ok st, st, w).

(** [state["category"] = v] *)
Definition set_category (v : ustring) : M unit :=
  fun st w => (Ok tt, mkState (filepath st) v (new_path st) (logs st), w).

(** [state["new_path"] = v] *)
Definition set_new_path (v : ustring) : M unit :=
  fun st w => (Ok tt, mkState (filepath st) (category st) v (logs st), w).

(** [state["logs"].append(msg)] *)
Definition append_log (msg : ustring) : M unit :=
  fun st w => (Ok tt, mkState (filepath st) (category st) (new_path st) (logs st ++ [msg]), w).

(** An operation of the file system, run on the world's store. *)
Definition on_fs (op : store -> result unit * store) : M unit :=
  fun st w =>
    let '(r, s') := op (fs w) in
    (r, st, mkWorld s' (llm_reply w) (llm_calls w)).

(** [llm.invoke(prompt).content] *)
Definition llm_invoke (prompt : ustring) : M ustring :=
  fun st w =>
    let w' := mkWorld (fs w) (llm_reply w) (llm_calls w ++ [prompt]) in
    match llm_reply w (llm_calls w) prompt with
    | Some content => (Ok content, st, w')
    | None => (Raise LLMError, st, w')
    end.

(** ** The file system operations the pipeline calls *)

Definition fs_set (p : ustring) (n : option node) (s : store) : store :=
  fun q => if ueqb q p then n else s q.

(** [os.path.exists], [os.path.isdir], [os.path.isfile] *)
Definition path_exists (s : store) (p : ustring) : bool :=
  match s p with Some _ => true | None => false end.
Definition isdir (s : store) (p : ustring) : bool :=
  match s p with Some Dir => true | _ => false end.
Definition isfile (s : store) (p : ustring) : bool :=
  match s p with Some (File _) => true | _ => false end.

(** [os.mkdir(name)]: the parent (the current directory when the spelling
    has none) must be a directory and [name] must not exist. *)
Definition os_mkdir (name : ustring) (s : store) : result unit * store :=
  if is_empty name then (Raise FileNotFoundError, s)
  else if path_exists s name then (Raise FileExistsError, s)
  else
    let parent := dirname name in
    if is_empty parent || isdir s parent then (Ok tt, fs_set name (Some Dir) s)
    else if path_exists s parent then (Raise NotADirectoryError, s)
    else (Raise FileNotFoundError, s).

(** The last step of [os.makedirs(name, exist_ok=True)]: [mkdir], and an
    error is dropped when [name] is a directory. *)
Definition mkdir_exist_ok (name : ustring) (s : store) : result unit * store :=
  match os_mkdir name s with
  | (Ok tt, s') => (Ok tt, s')
  | (Raise e, s') => if isdir s' name then (Ok tt, s') else (Raise e, s')
  end.

(** [os.makedirs(name, exist_ok=True)], following the library's recursion
    on the head of [name]; [fuel] bounds the depth. *)
Fixpoint makedirs_rec (fuel : nat) (name : ustring) (s : store) : result unit * store :=
  let '(head, tail) := path_split name in
  let '(head, tail) := if is_empty tail then path_split head else (head, tail) in
  if negb (is_empty head) && negb (is_empty tail) && negb (path_exists s head) then
    match fuel with
    | O => (Raise RecursionError, s)
    | S fuel' =>
        match makedirs_rec fuel' head s with
        | (Raise FileExistsError, s1) | (Ok tt, s1) =>
            if ueqb tail [dot] then (Ok tt, s1) else mkdir_exist_ok name s1
        | (Raise e, s1) => (Raise e, s1)
        end
    end
  else mkdir_exist_ok name s.

Definition os_makedirs (name : ustring) (s : store) : result unit * store :=
  makedirs_rec (List.length name) name s.

(** [q] lies below the directory spelled [d]. *)
Definition under (d q : ustring) : bool := startswith (d ++ [sep]) q.

(** The store after the directory [src] and what lies below it has been
    renamed to [dst]. *)
Definition move_tree (src dst : ustring) (s : store) : store :=
  fun q =>
    if ueqb q dst then Some Dir
    else if under dst q then s (src ++ skipn (List.length dst) q)
    else if ueqb q src || under src q then None
    else s q.

(** [os.rename(src, real_dst)] as [shutil.move] calls it, [real_dst] not
    being an existing directory, together with the copy-and-delete that
    [shutil.move] tries when the rename fails: on one device it fails too. *)
Definition rename_entry (src real_dst : ustring) (s : store) : result unit * store :=
  match s src with
  | None => (Raise FileNotFoundError, s)
  | Some n =>
      let parent := dirname real_dst in
      if negb (is_empty parent || isdir s parent) then (Raise FileNotFoundError, s)
      else
        match n with
        | File c => (Ok tt, fs_set real_dst (Some (File c)) (fs_set src None s))
        | Dir =>
            if under src real_dst then (Raise ShutilError, s)
            else if path_exists s real_dst then (Raise FileExistsError, s)
            else (Ok tt, move_tree src real_dst s)
        end
  end.

(** [shutil._basename] *)
Definition shutil_basename (p : ustring) : ustring := basename (rstrip_by is_sep p).

(** [shutil.move(src, dst)]: into [dst] when [dst] is an existing
    directory, onto [dst] otherwise. *)
Definition shutil_move (src dst : ustring) (s : store) : result unit * store :=
  if isdir s dst then
    if ueqb src dst then (Ok tt, s)
    else
      let real_dst := join dst (shutil_basename src) in
      if path_exists s real_dst then (Raise ShutilError, s)
      else rename_entry src real_dst s
  else rename_entry src dst s.

(** What [os.makedirs(name)] may create: [name] or a directory above it,
    never a spelling made of separators only. *)
Definition created_by (name q : ustring) : Prop :=
  (List.length q <= List.length name)%nat
  /\ all_seps q = false
  /\ (q = name \/ under q name = true).

(** [s'] is [s] with, possibly, directories added at spellings that named
    nothing and satisfy [P]. *)
Definition grows (P : ustring -> Prop) (s s' : store) : Prop :=
  forall q, s' q = s q \/ (s q = None /\ s' q = Some Dir /\ P q).

(** A spelling of a directory as [os.path.dirname] and [os.path.join]
    give it: separators only (the empty spelling, the root), or no
    separator at the end. *)
Definition tidy (d : ustring) : Prop :=
  all_seps d = true \/ endswith [sep] d = false.

(** A store in which whatever is below [base] is laid out as the loop lays
    it out: folders directly in [base], regular files directly in such a
    folder. *)
Definition sorted_below (base : ustring) (s : store) : Prop :=
  forall q, under base q = true ->
    s q = None
    \/ (s q = Some Dir /\ dirname q = base)
    \/ ((exists c, s q = Some (File c)) /\ dirname (dirname q) = base).

(** ** Reference data for the parameters, and sample worlds

    [ascii_lower] and [ascii_isspace] are what [str.lower] and
    [str.isspace] do on ASCII text. *)

Definition lower_cp (c : N) : N :=
  if (65 <=? c) && (c <=? 90) then c + 32 else c.

Definition ascii_lower (s : ustring) : ustring := map lower_cp s.

Definition ascii_isspace (c : N) : bool :=
  ((9 <=? c) && (c <=? 13)) || ((28 <=? c) && (c <=? 32)).

Definition is_ascii (c : N) : Prop := c < 128.

(** A store given by its entries. *)
Fixpoint store_of (l : list (ustring * node)) : store :=
  fun q =>
    match l with
    | [] => None
    | (p, n) :: l' => if ueqb q p then Some n else store_of l' q
    end.

(** A service that answers every prompt with [reply], and one that is down. *)
Definition llm_const (reply : ustring) : list ustring -> ustring -> option ustring :=
  fun _ _ => Some reply.
Definition llm_down : list ustring -> ustring -> option ustring :=
  fun _ _ => None.

(** The loop body's remainder when it leaves the world alone. *)
Definition no_after : ustring -> ustring -> World -> World := fun _ _ w => w.

(** A folder [in] with two regular files. *)
Definition inbox : World :=
  mkWorld
    (store_of [ (u "in", Dir);
                (u "in/report.pdf", File [37; 80; 68; 70]);
                (u "in/Makefile", File [97; 108; 108; 58]) ])
    (llm_const (u "  Code! "))
    [].

(** The same folder when the service is down. *)
Definition inbox_offline : World :=
  mkWorld (fs inbox) llm_down [].

(** A folder whose destination [organized/documents/a.txt] is already a
    directory. *)
Definition taken : World :=
  mkWorld
    (store_of [ (u "in", Dir);
                (u "in/a.txt", File [104; 105]);
                (u "in/organized", Dir);
                (u "in/organized/documents", Dir);
                (u "in/organized/documents/a.txt", Dir) ])
    (llm_const (u "others"))
    [].

(** A folder in which [organized/documents] is a regular file. *)
Definition blocked : World :=
  mkWorld
    (store_of [ (u "in", Dir);
                (u "in/a.txt", File [104; 105]);
                (u "in/b.png", File [137; 80; 78; 71]);
                (u "in/organized", Dir);
                (u "in/organized/documents", File []) ])
    (llm_const (u "others"))
    [].

(** A folder holding a directory named like a text file. *)
Definition with_folder : World :=
  mkWorld
    (store_of [ (u "in", Dir);
                (u "in/notes.txt", Dir);
                (u "in/notes.txt/page1", File [49]) ])
    (llm_const (u "others"))
    [].

(** A current directory holding one file, given by its bare name. *)
Definition desk : World :=
  mkWorld (store_of [ (u "notes.txt", File [104; 105]) ]) (llm_const (u "others")) [].

(** Decoding of bytes that are all ASCII. *)
Definition decode_ascii (bytes : list N) : ustring := bytes.

(** ** The nodes of the graph *)

Section Pipeline.

(** [str.lower] and [str.isspace] *)
Variable str_lower : ustring -> ustring.
Variable isspace : N -> bool.

(** [s.strip()] *)
Definition strip (s : ustring) : ustring := strip_by isspace s.

(** [clean_category] *)
Definition clean_category (cat : ustring) : ustring :=
  let cat := str_lower (strip cat) in
  let cat := filter allowed cat in
  if is_empty cat then u "others" else cat.

(** Strip any character outside [a-z0-9_-]. *)
Fixpoint drop_outside (s : ustring) : ustring :=
  match s with
  | [] => []
  | c :: t => if allowed c then c :: drop_outside t else drop_outside t
  end.

(** The normalization of a reply in the words of the specification: trim
    white space, lowercase, strip any character outside [a-z0-9_-], and
    substitute "others" when the result is empty. *)
Definition normalize_spec (x : ustring) : ustring :=
  let trimmed := rstrip_by isspace (lstrip_by isspace x) in
  let lowered := str_lower trimmed in
  match drop_outside lowered with
  | [] => u "others"
  | kept => kept
  end.

(** The prompt of [classify_file]. *)
Definition classify_prompt (filename : ustring) : ustring :=
  u "Return ONLY one single-word category for this file: " ++ filename ++ u ". "
  ++ u "Options: images, documents, data, videos, audio, archives, code, others. "
  ++ u "Respond with ONLY the category.".

(** The extension as [classify_file] computes it. *)
Definition extension (filename : ustring) : ustring :=
  str_lower (last_piece (split dot filename)).

(** [classify_file] *)
Definition classify_file : M unit :=
  st <- get_state ;;
  let filename := basename (filepath st) in
  let ext := extension filename in
  match dict_get mapping ext with
  | Some v => set_category v
  | None =>
      ai_result <- llm_invoke (classify_prompt filename) ;;
      set_category (clean_category ai_result)
  end ;;
  st <- get_state ;;
  append_log (u "Classified " ++ filename ++ u " as " ++ category st).

(** The prompts [classify_file] sends for a file name: none on a table
    hit, the classification prompt otherwise. *)
Definition prompts_for (filename : ustring) : list ustring :=
  match dict_get mapping (extension filename) with
  | Some _ => []
  | None => [classify_prompt filename]
  end.

(** The destination [move_file] computes for a path and a category. *)
Definition destination (path cat : ustring) : ustring :=
  join (join (join (dirname path) (u "organized")) cat) (basename path).

(** [move_file] *)
Definition move_file : M unit :=
  st <- get_state ;;
  let input_folder := dirname (filepath st) in
  let base_folder := join input_folder (u "organized") in
  on_fs (os_makedirs base_folder) ;;
  let target_folder := join base_folder (category st) in
  on_fs (os_makedirs target_folder) ;;
  let new_path := join target_folder (basename (filepath st)) in
  on_fs (shutil_move (filepath st) new_path) ;;
  set_new_path new_path ;;
  append_log (u "Moved file to " ++ new_path).

(** [log_report] *)
Definition log_report : M unit :=
  append_log (u "Completed file processing.").

(** The compiled graph: classify, then move, then log. *)
Definition app_invoke : M unit :=
  classify_file ;; move_file ;; log_report.

(** The record the batch loop passes to the graph. *)
Definition fresh_record (path : ustring) : FileState := mkState path [] [] [].

(** ** The batch loop of the organizer tab *)

Inductive batch :=
| InvalidFolder
| Finished (report_logs : list ustring) (w : World)
| Aborted (e : exn) (report_logs : list ustring) (w : World).

Section Batch.

(** What follows [app.invoke] in the loop body (the summary, the progress
    bar): it is guarded by a bare [except] and does not raise. *)
Variable after_invoke : ustring -> ustring -> World -> World.

Fixpoint organize_loop (folder_path : ustring) (files : list ustring)
    (report_logs : list ustring) (w : World) : batch :=
  match files with
  | [] => Finished report_logs w
  | file :: rest =>
      let full_path := join folder_path file in
      match app_invoke (fresh_record full_path) w with
      | (Ok _, result, w') =>
          organize_loop folder_path rest (report_logs ++ logs result)
            (after_invoke file full_path w')
      | (Raise e, _, w') => Aborted e report_logs w'
      end
  end.

(** The handler of the start button; [listing] is what [os.listdir]
    returns for the folder. *)
Definition organize (folder_path : ustring) (listing : list ustring) (w : World) : batch :=
  if is_empty folder_path || negb (path_exists (fs w) folder_path) then InvalidFolder
  else
    let files := filter (fun f => isfile (fs w) (join folder_path f)) listing in
    organize_loop folder_path files [] w.

End Batch.

(** ** The whole handler of the start button, with the summaries *)

(** The three entries an invocation that returns leaves in the log. *)
Definition entries_of (file cat path : ustring) : list ustring :=
  [ u "Classified " ++ file ++ u " as " ++ cat;
    u "Moved file to " ++ path;
    u "Completed file processing." ].

(** [llm.invoke(prompt).content] outside the graph: the reply, if any, and
    the world with the prompt recorded. *)
Definition llm_call (prompt : ustring) (w : World) : option ustring * World :=
  (llm_reply w (llm_calls w) prompt,
   mkWorld (fs w) (llm_reply w) (llm_calls w ++ [prompt])).

(** The line for a file whose summary could not be made. *)
Definition unreadable (file : ustring) : ustring :=
  file ++ u ": Could not read content for summary.".

Section Summaries.

(** [bytes.decode(errors='ignore')] *)
Variable decode : list N -> ustring.

(** The summary of the loop body: what is appended to [summary_logs], and
    the world.  [open] raises on a spelling that names no regular file, the
    call to the service may raise, and the bare [except] turns both into
    the same line. *)
Definition summarize (enable_summary : bool) (file full_path : ustring) (w : World)
    : list ustring * World :=
  if enable_summary then
    match fs w full_path with
    | Some (File bytes) =>
        let content := decode (firstn 5000 bytes) in
        match llm_call (u "Summarize this document in one sentence: " ++ content) w with
        | (Some summary, w') => ([file ++ u ": " ++ summary], w')
        | (None, w') => ([unreadable file], w')
        end
    | _ => ([unreadable file], w)
    end
  else ([], w).

Inductive tab :=
| TabInvalid
| TabDone (report_logs summary_logs : list ustring) (w : World)
| TabRaised (e : exn) (w : World).

(** The loop over the files, with both accumulators. *)
Fixpoint run_files (enable_summary : bool) (folder_path : ustring)
    (files : list ustring) (report_logs summary_logs : list ustring) (w : World) : tab :=
  match files with
  | [] => TabDone report_logs summary_logs w
  | file :: rest =>
      let full_path := join folder_path file in
      match app_invoke (fresh_record full_path) w with
      | (Ok _, result, w1) =>
          let '(lines, w2) := summarize enable_summary file full_path w1 in
          run_files enable_summary folder_path rest
            (report_logs ++ logs result) (summary_logs ++ lines) w2
      | (Raise e, _, w1) => TabRaised e w1
      end
  end.

(** The handler: the folder must be given and exist; [os.listdir] raises on
    what is not a directory; the regular files of the listing are run in
    order. *)
Definition start_organizing (enable_summary : bool) (folder_path : ustring)
    (listing : list ustring) (w : World) : tab :=
  if is_empty folder_path || negb (path_exists (fs w) folder_path) then TabInvalid
  else if negb (isdir (fs w) folder_path) then TabRaised NotADirectoryError w
  else
    let files := filter (fun f => isfile (fs w) (join folder_path f)) listing in
    run_files enable_summary folder_path files [] [] w.

End Summaries.

(** What the handler stores in the session when it runs to its end. *)
Definition session_logs (t : tab) : list ustring :=
  match t with TabDone report _ _ => report | _ => [] end.
Definition session_summaries (t : tab) : list ustring :=
  match t with TabDone _ summaries _ => summaries | _ => [] end.
Definition world_after (w : World) (t : tab) : World :=
  match t with TabDone _ _ w' => w' | TabRaised _ w' => w' | TabInvalid => w end.


(** ** Facts about strings and paths *)

Lemma ueqb_refl (a : ustring) : ueqb a a = true.
Proof.
  induction a as [|x a IH]; simpl; [reflexivity|].
  now rewrite N.eqb_refl, IH.
Qed.

Lemma ueqb_eq (a b : ustring) : ueqb a b = true <-> a = b.
Proof.
  split; [|intros ->; apply ueqb_refl].
  revert b; induction a as [|x a IH]; intros [|y b]; simpl; try discriminate; auto.
  intros H; apply andb_true_iff in H as [Hx Hr].
  apply N.eqb_eq in Hx; subst; f_equal; auto.
Qed.

Lemma ueqb_neq (a b : ustring) : ueqb a b = false <-> a <> b.
Proof.
  split.
  - intros H E; subst. rewrite ueqb_refl in H; discriminate.
  - intros H. destruct (ueqb a b) eqn:E; [|reflexivity].
    apply ueqb_eq in E; contradiction.
Qed.

Lemma split_nonempty (c : N) (s : ustring) : split c s <> [].
Proof.
  destruct s as [|x t]; simpl; [discriminate|].
  destruct (N.eqb x c); [discriminate|].
  destruct (split c t); discriminate.
Qed.

(** Without the separator there is one piece, the string itself. *)
Lemma split_absent (c : N) (s : ustring) : ~ In c s -> split c s = [s].
Proof.
  induction s as [|x t IH]; simpl; intros H; [reflexivity|].
  destruct (N.eqb x c) eqn:E.
  - apply N.eqb_eq in E; subst; exfalso; auto.
  - rewrite IH; auto.
Qed.

Lemma last_cons_nonempty (A : Type) (x : A) (l : list A) (d : A) :
  l <> [] -> last (x :: l) d = last l d.
Proof. destruct l; [contradiction|reflexivity]. Qed.

Lemma split_two_pieces (c : N) (a b : ustring) :
  (2 <= List.length (split c (a ++ c :: b)))%nat.
Proof.
  induction a as [|x a IH]; simpl.
  - rewrite N.eqb_refl. simpl.
    destruct (split c b) eqn:E; [now apply split_nonempty in E|simpl; lia].
  - destruct (N.eqb x c); simpl; [lia|].
    destruct (split c (a ++ c :: b)); simpl in *; lia.
Qed.

Lemma last_piece_after_sep (c : N) (a b : ustring) :
  last_piece (split c (a ++ c :: b)) = last_piece (split c b).
Proof.
  unfold last_piece. induction a as [|x a IH]; simpl.
  - rewrite N.eqb_refl. apply last_cons_nonempty, split_nonempty.
  - destruct (N.eqb x c).
    + rewrite last_cons_nonempty by apply split_nonempty. exact IH.
    + pose proof (split_two_pieces c a b) as Hl.
      destruct (split c (a ++ c :: b)) as [|h [|h' r]]; simpl in Hl; try lia.
      exact IH.
Qed.

(** The last piece is what follows the final separator. *)
Lemma split_last (c : N) (pre suf : ustring) :
  ~ In c suf -> last_piece (split c (pre ++ c :: suf)) = suf.
Proof.
  intros H. rewrite last_piece_after_sep, split_absent by assumption.
  reflexivity.
Qed.

(** ** What is used of [str.lower] and [str.isspace]

    On ASCII text Python's functions are [ascii_lower] and
    [ascii_isspace]. *)

Hypothesis lower_ascii :
  forall s, Forall is_ascii s -> str_lower s = ascii_lower s.
Hypothesis isspace_ascii :
  forall c, is_ascii c -> isspace c = ascii_isspace c.

(** ** The classify stage *)

(** A table hit: the category is the table's value, one log entry is
    appended and the world is untouched. *)
Lemma classify_hit (st : FileState) (w : World) (v : ustring) :
  dict_get mapping (extension (basename (filepath st))) = Some v ->
  classify_file st w =
    (Ok tt,
     mkState (filepath st) v (new_path st)
       (logs st ++ [u "Classified " ++ basename (filepath st) ++ u " as " ++ v]),
     w).
Proof.
  intros H. unfold classify_file, bind, get_state. rewrite H. reflexivity.
Qed.

(** A table miss answered by the service. *)
Lemma classify_miss_reply (st : FileState) (w : World) (content : ustring) :
  dict_get mapping (extension (basename (filepath st))) = None ->
  llm_reply w (llm_calls w) (classify_prompt (basename (filepath st))) = Some content ->
  classify_file st w =
    (Ok tt,
     mkState (filepath st) (clean_category content) (new_path st)
       (logs st ++ [u "Classified " ++ basename (filepath st) ++ u " as "
                    ++ clean_category content]),
     mkWorld (fs w) (llm_reply w)
       (llm_calls w ++ [classify_prompt (basename (filepath st))])).
Proof.
  intros H R. unfold classify_file, bind, get_state, llm_invoke.
  rewrite H, R. reflexivity.
Qed.

(** A table miss when the call to the service raises. *)
Lemma classify_miss_down (st : FileState) (w : World) :
  dict_get mapping (extension (basename (filepath st))) = None ->
  llm_reply w (llm_calls w) (classify_prompt (basename (filepath st))) = None ->
  classify_file st w =
    (Raise LLMError, st,
     mkWorld (fs w) (llm_reply w)
       (llm_calls w ++ [classify_prompt (basename (filepath st))])).
Proof.
  intros H R. unfold classify_file, bind, get_state, llm_invoke.
  rewrite H, R. reflexivity.
Qed.

Lemma extension_after_dot (filename pre suf : ustring) :
  filename = pre ++ dot :: suf -> ~ In dot suf ->
  extension filename = str_lower suf.
Proof.
  intros -> H. unfold extension. now rewrite split_last.
Qed.

Lemma extension_no_dot (filename : ustring) :
  ~ In dot filename -> extension filename = str_lower filename.
Proof.
  intros H. unfold extension. now rewrite split_absent.
Qed.

Ltac ascii_text :=
  repeat (first [apply Forall_nil | apply Forall_cons; [reflexivity|]]).

Ltac not_in_text := vm_compute; intuition discriminate.

Lemma lower_literal (s : ustring) :
  Forall is_ascii s -> ascii_lower s = s -> str_lower s = s.
Proof. intros H E. now rewrite lower_ascii. Qed.

(** C1. For every file name whose extension, the lowercased text after its
    last '.', is a key of the table, [classify_file] returns with the
    category set to the table's value and leaves the world as it was: no
    prompt is sent to the service, and the value does not depend on the
    service.  Matching ignores case: "report.pdf" gives documents and
    "movie.MKV" gives videos. *)
Theorem classify_known_extension :
  (forall st w pre suf v,
      basename (filepath st) = pre ++ dot :: suf -> ~ In dot suf ->
      dict_get mapping (str_lower suf) = Some v ->
      exists st',
        classify_file st w = (Ok tt, st', w) /\ category st' = v)
  /\ (forall w, exists st',
        classify_file (fresh_record (u "report.pdf")) w = (Ok tt, st', w)
        /\ category st' = u "documents")
  /\ (forall w, exists st',
        classify_file (fresh_record (u "movie.MKV")) w = (Ok tt, st', w)
        /\ category st' = u "videos").
Proof.
  split; [|split].
  - intros st w pre suf v Hb Hs Hk.
    eexists; split; [apply classify_hit|reflexivity].
    now rewrite (extension_after_dot _ pre suf).
  - intros w. eexists; split; [apply classify_hit|reflexivity].
    rewrite (extension_after_dot _ (u "report") (u "pdf"));
      [|reflexivity|not_in_text].
    rewrite lower_ascii by ascii_text. reflexivity.
  - intros w. eexists; split; [apply classify_hit|reflexivity].
    rewrite (extension_after_dot _ (u "movie") (u "MKV"));
      [|reflexivity|not_in_text].
    rewrite lower_ascii by ascii_text. reflexivity.
Qed.

(** C2, at the input where the code departs from it.  The file name "pdf"
    has no '.', yet its extension as [classify_file] computes it is the
    whole name, a key of the table: the category is documents and no
    prompt is sent. *)
Theorem classify_bare_name_hits_table :
  ~ In dot (u "pdf")
  /\ extension (u "pdf") = u "pdf"
  /\ forall w,
       classify_file (fresh_record (u "pdf")) w =
         (Ok tt,
          mkState (u "pdf") (u "documents") []
            [u "Classified pdf as documents"],
          w).
Proof.
  assert (E : extension (u "pdf") = u "pdf").
  { rewrite extension_no_dot by not_in_text.
    apply lower_literal; [ascii_text|reflexivity]. }
  split; [not_in_text|split; [exact E|]].
  intros w. rewrite (classify_hit _ _ (u "documents")); [reflexivity|].
  change (basename (filepath (fresh_record (u "pdf")))) with (u "pdf").
  rewrite E. reflexivity.
Qed.

(** A name without '.' that is not a key of the table does reach the
    service, once. *)
Lemma classify_bare_name_miss (st : FileState) (w : World) (content : ustring) :
  ~ In dot (basename (filepath st)) ->
  dict_get mapping (str_lower (basename (filepath st))) = None ->
  llm_reply w (llm_calls w) (classify_prompt (basename (filepath st))) = Some content ->
  exists st' w',
    classify_file st w = (Ok tt, st', w')
    /\ llm_calls w' = llm_calls w ++ [classify_prompt (basename (filepath st))]
    /\ category st' = clean_category content.
Proof.
  intros Hd Hk Hr. do 2 eexists. split; [apply classify_miss_reply|split; reflexivity].
  - now rewrite extension_no_dot.
  - exact Hr.
Qed.

(** ** Category tokens *)

Lemma is_token_spec (v : ustring) :
  is_token v = true <-> v <> [] /\ Forall (fun c => allowed c = true) v.
Proof.
  unfold is_token. rewrite andb_true_iff, forallb_forall, Forall_forall.
  destruct v; simpl; split; intros [H1 H2]; split; auto; congruence.
Qed.

Lemma dict_get_In (d : list (ustring * ustring)) (k v : ustring) :
  dict_get d k = Some v -> exists k', In (k', v) d.
Proof.
  induction d as [|[k' v'] d IH]; simpl; [discriminate|].
  destruct (ueqb k k').
  - intros [= ->]. exists k'. now left.
  - intros H. destruct (IH H) as [k'' Hin]. exists k''. now right.
Qed.

(** Every value of the table is a token. *)
Lemma mapping_values_tokens :
  forallb (fun kv => is_token (snd kv)) mapping = true.
Proof. vm_compute. reflexivity. Qed.

Lemma mapping_value_token (k v : ustring) :
  dict_get mapping k = Some v -> is_token v = true.
Proof.
  intros H. apply dict_get_In in H as [k' Hin].
  pose proof mapping_values_tokens as Hall.
  rewrite forallb_forall in Hall. exact (Hall _ Hin).
Qed.

Lemma filter_allowed_all (s : ustring) :
  forallb allowed (filter allowed s) = true.
Proof.
  induction s as [|c t IH]; simpl; [reflexivity|].
  destruct (allowed c) eqn:E; simpl; [rewrite E|]; exact IH.
Qed.

(** [clean_category] always returns a token. *)
Lemma clean_category_token (x : ustring) : is_token (clean_category x) = true.
Proof.
  unfold clean_category.
  destruct (filter allowed (str_lower (strip x))) as [|c t] eqn:E; simpl.
  - vm_compute. reflexivity.
  - unfold is_token. rewrite <- E. simpl. rewrite filter_allowed_all.
    rewrite E. reflexivity.
Qed.

Lemma drop_outside_filter (s : ustring) : drop_outside s = filter allowed s.
Proof.
  induction s as [|c t IH]; simpl; [reflexivity|].
  rewrite IH. reflexivity.
Qed.

(** The code's normalization is the specification's. *)
Lemma clean_category_normalize (x : ustring) :
  clean_category x = normalize_spec x.
Proof.
  unfold clean_category, normalize_spec, strip, strip_by.
  set (lowered := str_lower _).
  rewrite (drop_outside_filter lowered).
  destruct (filter allowed lowered); reflexivity.
Qed.

(** What [classify_file] leaves in [category] when it returns. *)
Lemma classify_returns (st st' : FileState) (w w' : World) :
  classify_file st w = (Ok tt, st', w') ->
  exists v,
    is_token v = true
    /\ st' = mkState (filepath st) v (new_path st)
               (logs st ++ [u "Classified " ++ basename (filepath st) ++ u " as " ++ v])
    /\ fs w' = fs w.
Proof.
  intros H.
  destruct (dict_get mapping (extension (basename (filepath st)))) as [v|] eqn:E.
  - rewrite (classify_hit _ _ v E) in H. inversion H; subst.
    exists v. split; [eapply mapping_value_token; eauto|split; reflexivity].
  - destruct (llm_reply w (llm_calls w) (classify_prompt (basename (filepath st))))
      as [content|] eqn:R.
    + rewrite (classify_miss_reply _ _ content E R) in H. inversion H; subst.
      exists (clean_category content).
      split; [apply clean_category_token|split; reflexivity].
    + rewrite (classify_miss_down _ _ E R) in H. discriminate.
Qed.

(** C4. Whenever the classify stage returns, the record's category is not
    empty and every character of it is in [a-z0-9_-].  The normalization of
    a reply is: trim, lowercase, drop the characters outside that alphabet,
    and take "others" when nothing is left. *)
Theorem classify_category_token (st st' : FileState) (w w' : World) :
  classify_file st w = (Ok tt, st', w') ->
  (category st' <> [] /\ Forall (fun c => allowed c = true) (category st'))
  /\ (forall x, clean_category x = normalize_spec x)
  /\ (forall x, clean_category x <> []
                /\ Forall (fun c => allowed c = true) (clean_category x)).
Proof.
  intros H. split; [|split].
  - apply classify_returns in H as (v & Hv & -> & _). simpl.
    now apply is_token_spec.
  - apply clean_category_normalize.
  - intros x. apply is_token_spec, clean_category_token.
Qed.

(** ** Normalization twice *)

Lemma allowed_cases (c : N) :
  allowed c = true ->
  (97 <= c <= 122) \/ (48 <= c <= 57) \/ c = 95 \/ c = 45.
Proof.
  unfold allowed.
  rewrite !orb_true_iff, !andb_true_iff, !N.leb_le, !N.eqb_eq. tauto.
Qed.

Lemma allowed_ascii (c : N) : allowed c = true -> is_ascii c.
Proof. intros H. apply allowed_cases in H. unfold is_ascii. lia. Qed.

Lemma allowed_lower (c : N) : allowed c = true -> lower_cp c = c.
Proof.
  intros H. apply allowed_cases in H. unfold lower_cp.
  destruct ((65 <=? c) && (c <=? 90)) eqn:E; [|reflexivity].
  apply andb_true_iff in E as [E1 E2]. apply N.leb_le in E1, E2. lia.
Qed.

Lemma allowed_not_space (c : N) : allowed c = true -> ascii_isspace c = false.
Proof.
  intros H. apply allowed_cases in H. unfold ascii_isspace.
  apply orb_false_iff; split; apply andb_false_iff.
  - right. apply N.leb_gt. lia.
  - right. apply N.leb_gt. lia.
Qed.

Lemma lstrip_by_keeps (f : N -> bool) (s : ustring) :
  Forall (fun c => f c = false) s -> lstrip_by f s = s.
Proof.
  destruct 1 as [|c t Hc _]; simpl; [reflexivity|]. now rewrite Hc.
Qed.

Lemma rstrip_by_keeps (f : N -> bool) (s : ustring) :
  Forall (fun c => f c = false) s -> rstrip_by f s = s.
Proof.
  intros H. unfold rstrip_by.
  rewrite lstrip_by_keeps by now apply Forall_rev.
  apply rev_involutive.
Qed.

Lemma filter_keeps (s : ustring) :
  Forall (fun c => allowed c = true) s -> filter allowed s = s.
Proof.
  induction 1 as [|c t Hc _ IH]; simpl; [reflexivity|].
  now rewrite Hc, IH.
Qed.

(** A token is a fixed point of [clean_category]. *)
Lemma clean_category_fixes_token (v : ustring) :
  is_token v = true -> clean_category v = v.
Proof.
  intros H. apply is_token_spec in H as [Hne Hall].
  assert (Hsp : Forall (fun c => isspace c = false) v).
  { eapply Forall_impl; [|exact Hall]. intros c Hc. simpl.
    rewrite isspace_ascii by now apply allowed_ascii.
    now apply allowed_not_space. }
  assert (Hlow : str_lower v = v).
  { rewrite lower_ascii.
    - unfold ascii_lower. clear Hne Hsp.
      induction Hall as [|c t Hc _ IH]; simpl; [reflexivity|].
      now rewrite allowed_lower, IH.
    - eapply Forall_impl; [|exact Hall]. exact allowed_ascii. }
  unfold clean_category, strip, strip_by.
  rewrite (lstrip_by_keeps _ _ Hsp), (rstrip_by_keeps _ _ Hsp), Hlow.
  rewrite (filter_keeps _ Hall).
  destruct v; [contradiction|reflexivity].
Qed.

(** C5. Normalizing a reply twice is normalizing it once. *)
Theorem clean_category_idempotent (x : ustring) :
  clean_category (clean_category x) = clean_category x.
Proof.
  apply clean_category_fixes_token.
  apply clean_category_token.
Qed.

(** ** Sequencing *)

Lemma bind_returns {A B} (m : M A) (k : A -> M B) st w b st' w' :
  bind m k st w = (Ok b, st', w') ->
  exists a st1 w1, m st w = (Ok a, st1, w1) /\ k a st1 w1 = (Ok b, st', w').
Proof.
  unfold bind. destruct (m st w) as [[[a|e] st1] w1]; intros H.
  - now exists a, st1, w1.
  - discriminate.
Qed.

Lemma bind_raises {A B} (m : M A) (k : A -> M B) st w e st' w' :
  bind m k st w = (Raise e, st', w') ->
  m st w = (Raise e, st', w')
  \/ exists a st1 w1, m st w = (Ok a, st1, w1) /\ k a st1 w1 = (Raise e, st', w').
Proof.
  unfold bind. destruct (m st w) as [[[a|e0] st1] w1]; intros H.
  - right. now exists a, st1, w1.
  - left. inversion H. reflexivity.
Qed.

Lemma on_fs_result (op : store -> result unit * store) st w r st' w' :
  on_fs op st w = (r, st', w') ->
  exists s', op (fs w) = (r, s') /\ st' = st
             /\ w' = mkWorld s' (llm_reply w) (llm_calls w).
Proof.
  unfold on_fs. destruct (op (fs w)) as [r0 s']. intros [= <- <- <-].
  now exists s'.
Qed.

(** ** The move stage *)

(** When [move_file] returns: both directories were made, the move was
    done, and the record holds the destination and one more log entry. *)
Lemma move_returns (st st' : FileState) (w w' : World) :
  move_file st w = (Ok tt, st', w') ->
  let base := join (dirname (filepath st)) (u "organized") in
  let target := join base (category st) in
  let dst := destination (filepath st) (category st) in
  exists s1 s2 s3,
    os_makedirs base (fs w) = (Ok tt, s1)
    /\ os_makedirs target s1 = (Ok tt, s2)
    /\ shutil_move (filepath st) dst s2 = (Ok tt, s3)
    /\ st' = mkState (filepath st) (category st) dst
               (logs st ++ [u "Moved file to " ++ dst])
    /\ w' = mkWorld s3 (llm_reply w) (llm_calls w).
Proof.
  unfold move_file. intros H.
  apply bind_returns in H as (st0 & st1 & w1 & Hget & H).
  unfold get_state in Hget. inversion Hget; subst st0 st1 w1; clear Hget.
  apply bind_returns in H as ([] & st1 & w1 & H1 & H).
  apply on_fs_result in H1 as (s1 & H1 & -> & ->).
  apply bind_returns in H as ([] & st2 & w2 & H2 & H).
  apply on_fs_result in H2 as (s2 & H2 & -> & ->).
  apply bind_returns in H as ([] & st3 & w3 & H3 & H).
  apply on_fs_result in H3 as (s3 & H3 & -> & ->).
  simpl in *. unfold bind, set_new_path, append_log in H. simpl in H.
  inversion H; subst; clear H.
  exists s1, s2, s3. repeat split; assumption.
Qed.

(** When [move_file] raises, the record is the one it was given and
    nothing was sent to the service. *)
Lemma move_raises (st st' : FileState) (w w' : World) (e : exn) :
  move_file st w = (Raise e, st', w') ->
  st' = st /\ llm_calls w' = llm_calls w /\ llm_reply w' = llm_reply w.
Proof.
  unfold move_file. intros H.
  apply bind_raises in H as [H|(st0 & st1 & w1 & Hget & H)]; [discriminate|].
  unfold get_state in Hget. inversion Hget; subst st0 st1 w1; clear Hget.
  apply bind_raises in H as [H|([] & st1 & w1 & H1 & H)].
  { apply on_fs_result in H as (s1 & _ & -> & ->). auto. }
  apply on_fs_result in H1 as (s1 & H1 & -> & ->).
  apply bind_raises in H as [H|([] & st2 & w2 & H2 & H)].
  { apply on_fs_result in H as (s2 & _ & -> & ->). auto. }
  apply on_fs_result in H2 as (s2 & H2 & -> & ->).
  apply bind_raises in H as [H|([] & st3 & w3 & H3 & H)].
  { apply on_fs_result in H as (s3 & _ & -> & ->). auto. }
  unfold bind, set_new_path, append_log in H. discriminate.
Qed.

(** [classify_file] raises only on a failed call, with the record as it
    was given. *)
Lemma classify_raises (st st' : FileState) (w w' : World) (e : exn) :
  classify_file st w = (Raise e, st', w') ->
  e = LLMError /\ st' = st /\ fs w' = fs w
  /\ llm_calls w' = llm_calls w ++ [classify_prompt (basename (filepath st))].
Proof.
  intros H.
  destruct (dict_get mapping (extension (basename (filepath st)))) as [v|] eqn:E.
  - rewrite (classify_hit _ _ v E) in H. discriminate.
  - destruct (llm_reply w (llm_calls w) (classify_prompt (basename (filepath st))))
      as [content|] eqn:R.
    + rewrite (classify_miss_reply _ _ content E R) in H. discriminate.
    + rewrite (classify_miss_down _ _ E R) in H. inversion H; subst. auto.
Qed.

(** ** The whole graph *)

Lemma invoke_returns (st st' : FileState) (w w' : World) :
  app_invoke st w = (Ok tt, st', w') ->
  exists st1 w1 st2,
    classify_file st w = (Ok tt, st1, w1)
    /\ move_file st1 w1 = (Ok tt, st2, w')
    /\ st' = mkState (filepath st2) (category st2) (new_path st2)
               (logs st2 ++ [u "Completed file processing."]).
Proof.
  unfold app_invoke. intros H.
  apply bind_returns in H as ([] & st1 & w1 & H1 & H).
  apply bind_returns in H as ([] & st2 & w2 & H2 & H).
  unfold log_report, append_log in H. inversion H; subst; clear H.
  now exists st1, w1, st2.
Qed.

Lemma invoke_raises (st st' : FileState) (w w' : World) (e : exn) :
  app_invoke st w = (Raise e, st', w') ->
  classify_file st w = (Raise e, st', w')
  \/ exists st1 w1,
       classify_file st w = (Ok tt, st1, w1)
       /\ move_file st1 w1 = (Raise e, st', w').
Proof.
  unfold app_invoke. intros H.
  apply bind_raises in H as [H|([] & st1 & w1 & H1 & H)]; [now left|].
  apply bind_raises in H as [H|([] & st2 & w2 & H2 & H)].
  - right. now exists st1, w1.
  - unfold log_report, append_log in H. discriminate.
Qed.

(** ** The audit log *)

Lemma log_report_result (st : FileState) (w : World) :
  log_report st w =
    (Ok tt,
     mkState (filepath st) (category st) (new_path st)
       (logs st ++ [u "Completed file processing."]),
     w).
Proof. reflexivity. Qed.

(** Each stage that returns has appended exactly one entry. *)
Lemma classify_appends (st st' : FileState) (w w' : World) :
  classify_file st w = (Ok tt, st', w') ->
  logs st' = logs st ++ [u "Classified " ++ basename (filepath st) ++ u " as " ++ category st'].
Proof.
  intros H. apply classify_returns in H as (v & _ & -> & _). reflexivity.
Qed.

Lemma move_appends (st st' : FileState) (w w' : World) :
  move_file st w = (Ok tt, st', w') ->
  logs st' = logs st ++ [u "Moved file to " ++ new_path st'].
Proof.
  intros H. apply move_returns in H as (s1 & s2 & s3 & _ & _ & _ & -> & _).
  reflexivity.
Qed.

(** Whatever the outcome of an invocation, the old entries stay in front. *)
Lemma invoke_extends_logs (st st' : FileState) (w w' : World) (r : result unit) :
  app_invoke st w = (r, st', w') -> exists l, logs st' = logs st ++ l.
Proof.
  destruct r as [[]|e]; intros H.
  - apply invoke_returns in H as (st1 & w1 & st2 & H1 & H2 & ->).
    apply classify_appends in H1. apply move_appends in H2. simpl.
    rewrite H2, H1, <- !app_assoc. eexists; reflexivity.
  - apply invoke_raises in H as [H|(st1 & w1 & H1 & H2)].
    + apply classify_raises in H as (_ & -> & _). exists []. now rewrite app_nil_r.
    + apply move_raises in H2 as (-> & _).
      apply classify_appends in H1. rewrite H1. eexists; reflexivity.
Qed.

(** C6. The log only grows: a stage that returns has appended one entry to
    the entries it was given, so the length goes up at each of classify,
    move and log; no outcome of an invocation drops or rewrites an earlier
    entry; and an invocation that starts from an empty log and returns
    leaves at least three entries. *)
Theorem logs_grow_per_stage :
  (forall st w st' w',
      classify_file st w = (Ok tt, st', w') ->
      (exists m, logs st' = logs st ++ [m])
      /\ (List.length (logs st) < List.length (logs st'))%nat)
  /\ (forall st w st' w',
      move_file st w = (Ok tt, st', w') ->
      (exists m, logs st' = logs st ++ [m])
      /\ (List.length (logs st) < List.length (logs st'))%nat)
  /\ (forall st w st' w',
      log_report st w = (Ok tt, st', w') ->
      (exists m, logs st' = logs st ++ [m])
      /\ (List.length (logs st) < List.length (logs st'))%nat)
  /\ (forall st w r st' w',
      app_invoke st w = (r, st', w') ->
      firstn (List.length (logs st)) (logs st') = logs st
      /\ (List.length (logs st) <= List.length (logs st'))%nat)
  /\ (forall st w st' w',
      logs st = [] ->
      app_invoke st w = (Ok tt, st', w') ->
      (3 <= List.length (logs st'))%nat).
Proof.
  split; [|split; [|split; [|split]]].
  - intros st w st' w' H. apply classify_appends in H.
    split; [eexists; exact H|]. rewrite H, length_app. simpl. lia.
  - intros st w st' w' H. apply move_appends in H.
    split; [eexists; exact H|]. rewrite H, length_app. simpl. lia.
  - intros st w st' w' H. rewrite log_report_result in H.
    inversion H; subst; simpl.
    split; [eexists; reflexivity|]. rewrite length_app. simpl. lia.
  - intros st w r st' w' H. apply invoke_extends_logs in H as [l ->]. split.
    + rewrite firstn_app, Nat.sub_diag, firstn_all. simpl. apply app_nil_r.
    + rewrite length_app. lia.
  - intros st w st' w' Hl H.
    apply invoke_returns in H as (st1 & w1 & st2 & H1 & H2 & ->).
    apply classify_appends in H1. apply move_appends in H2. simpl.
    rewrite H2, H1, !length_app. simpl. lia.
Qed.

(** C10. Each stage appends exactly one entry: an invocation that starts
    from an empty log and returns leaves exactly three entries, in stage
    order, naming the file, the category and the destination of the
    record it returns. *)
Theorem invoke_logs_exact (st st' : FileState) (w w' : World) :
  logs st = [] ->
  app_invoke st w = (Ok tt, st', w') ->
  logs st' =
    [ u "Classified " ++ basename (filepath st) ++ u " as " ++ category st';
      u "Moved file to " ++ new_path st';
      u "Completed file processing." ].
Proof.
  intros Hl H.
  apply invoke_returns in H as (st1 & w1 & st2 & H1 & H2 & ->).
  pose proof (classify_appends _ _ _ _ H1) as L1.
  pose proof (move_appends _ _ _ _ H2) as L2.
  apply move_returns in H2 as (s1 & s2 & s3 & _ & _ & _ & E2 & _).
  simpl. rewrite L2, L1, Hl. simpl.
  rewrite E2. reflexivity.
Qed.

(** ** Paths *)

Lemma rfind_lower_bound (c : N) (s : ustring) : (-1 <= rfind c s)%Z.
Proof.
  induction s as [|x t IH]; simpl; [lia|].
  destruct (0 <=? rfind c t)%Z eqn:E; [apply Z.leb_le in E; lia|].
  destruct (N.eqb x c); lia.
Qed.

(** Nothing after the index [rfind] returns is the character sought. *)
Lemma rfind_suffix (c : N) (s : ustring) :
  ~ In c (slice_from (rfind c s + 1) s).
Proof.
  unfold slice_from. induction s as [|x t IH]; simpl; [auto|].
  pose proof (rfind_lower_bound c t) as Hb.
  destruct (0 <=? rfind c t)%Z eqn:E.
  - apply Z.leb_le in E.
    replace (Z.to_nat (rfind c t + 1 + 1)) with (S (Z.to_nat (rfind c t + 1))) by lia.
    exact IH.
  - apply Z.leb_gt in E.
    assert (Hr : rfind c t = (-1)%Z) by lia.
    rewrite Hr in IH. simpl in IH.
    destruct (N.eqb x c) eqn:Ex; simpl.
    + exact IH.
    + intros [->|Hin]; [rewrite N.eqb_refl in Ex; discriminate|auto].
Qed.

Lemma basename_no_sep (p : ustring) : ~ In sep (basename p).
Proof. apply rfind_suffix. Qed.

Lemma startswith_sep_In (s : ustring) : startswith [sep] s = true -> In sep s.
Proof.
  destruct s as [|y t]; [discriminate|].
  change (startswith [sep] (y :: t)) with (N.eqb sep y && true).
  rewrite andb_true_r. intros H. apply N.eqb_eq in H. left. now symmetry.
Qed.

Lemma no_sep_no_lead (s : ustring) : ~ In sep s -> startswith [sep] s = false.
Proof.
  intros H. destruct (startswith [sep] s) eqn:E; [|reflexivity].
  now apply startswith_sep_In in E.
Qed.

Lemma allowed_not_sep (c : N) : allowed c = true -> is_sep c = false.
Proof.
  intros H. apply allowed_cases in H. unfold is_sep, sep.
  apply N.eqb_neq. lia.
Qed.

Lemma token_no_sep (v : ustring) : is_token v = true -> ~ In sep v.
Proof.
  intros H Hin. apply is_token_spec in H as [_ Hall].
  rewrite Forall_forall in Hall. apply Hall, allowed_not_sep in Hin.
  unfold is_sep in Hin. now rewrite N.eqb_refl in Hin.
Qed.

(** [join] with a second part that does not start with a separator puts
    the parts side by side, with at most one separator between them. *)
Lemma join_shape (a b : ustring) :
  startswith [sep] b = false ->
  join a b = a ++ b \/ join a b = a ++ [sep] ++ b.
Proof.
  intros H. unfold join. rewrite H.
  destruct (is_empty a || endswith [sep] a); auto.
Qed.

Lemma join_adds_sep (a b : ustring) :
  startswith [sep] b = false -> a <> [] -> endswith [sep] a = false ->
  join a b = a ++ [sep] ++ b.
Proof.
  intros H Ha He. unfold join. rewrite H, He.
  destruct a; [contradiction|reflexivity].
Qed.

Lemma endswith_token (x v : ustring) :
  is_token v = true -> endswith [sep] (x ++ v) = false.
Proof.
  intros H. apply is_token_spec in H as [Hne Hall].
  destruct (exists_last Hne) as (v' & c & ->).
  apply Forall_app in Hall as [_ Hc]. inversion Hc as [|? ? Hc' _]; subst.
  unfold endswith. rewrite !rev_app_distr.
  change (startswith (rev [sep]) ((rev [c] ++ rev v') ++ rev x))
    with (N.eqb sep c && true).
  apply allowed_not_sep in Hc'. unfold is_sep in Hc'.
  rewrite N.eqb_sym, Hc'. reflexivity.
Qed.

Lemma weight_app (a b : ustring) : weight (a ++ b) = (weight a + weight b)%nat.
Proof. unfold weight. now rewrite filter_app, length_app. Qed.

Lemma weight_rev (a : ustring) : weight (rev a) = weight a.
Proof. unfold weight. now rewrite filter_rev, length_rev. Qed.

Lemma weight_lstrip (s : ustring) : weight (lstrip_by is_sep s) = weight s.
Proof.
  induction s as [|c t IH]; simpl; [reflexivity|].
  destruct (is_sep c) eqn:E; [|reflexivity].
  rewrite IH. unfold weight. simpl. now rewrite E.
Qed.

Lemma weight_rstrip (s : ustring) : weight (rstrip_by is_sep s) = weight s.
Proof.
  unfold rstrip_by. now rewrite weight_rev, weight_lstrip, weight_rev.
Qed.

Lemma weight_join (a b : ustring) :
  startswith [sep] b = false -> weight (join a b) = (weight a + weight b)%nat.
Proof.
  intros H. destruct (join_shape a b H) as [-> | ->];
    rewrite !weight_app; [reflexivity|]. simpl. reflexivity.
Qed.

Lemma weight_dirname_basename (p : ustring) :
  (weight (dirname p) + weight (basename p))%nat = weight p.
Proof.
  unfold dirname, basename, slice_to, slice_from.
  set (k := Z.to_nat (rfind sep p + 1)).
  transitivity (weight (firstn k p ++ skipn k p));
    [|now rewrite firstn_skipn].
  rewrite weight_app.
  destruct (negb (is_empty (firstn k p)) && negb (all_seps (firstn k p)));
    [rewrite weight_rstrip|]; reflexivity.
Qed.

Lemma length_lstrip (f : N -> bool) (s : ustring) :
  (List.length (lstrip_by f s) <= List.length s)%nat.
Proof.
  induction s as [|c t IH]; simpl; [lia|]. destruct (f c); simpl; lia.
Qed.

Lemma length_rstrip (f : N -> bool) (s : ustring) :
  (List.length (rstrip_by f s) <= List.length s)%nat.
Proof.
  unfold rstrip_by. rewrite length_rev.
  etransitivity; [apply length_lstrip|]. now rewrite length_rev.
Qed.

Lemma path_split_head_length (p : ustring) :
  (List.length (fst (path_split p)) <= List.length p)%nat.
Proof.
  unfold path_split, slice_to. simpl.
  set (h := firstn _ p).
  assert (Hh : (List.length h <= List.length p)%nat)
    by (subst h; rewrite length_firstn; lia).
  destruct (negb (is_empty h) && negb (all_seps h)); [|exact Hh].
  etransitivity; [apply length_rstrip|exact Hh].
Qed.

(** The destination differs from the source, and is longer than the
    directory it is put in. *)
Lemma destination_weight (p cat : ustring) :
  is_token cat = true ->
  weight (destination p cat) = (weight p + 9 + weight cat)%nat.
Proof.
  intros Hc. unfold destination.
  rewrite weight_join by (apply no_sep_no_lead, basename_no_sep).
  rewrite weight_join by (apply no_sep_no_lead, token_no_sep, Hc).
  rewrite weight_join by reflexivity.
  change (weight (u "organized")) with 9%nat.
  pose proof (weight_dirname_basename p). lia.
Qed.

Lemma destination_fresh (p cat : ustring) :
  is_token cat = true -> destination p cat <> p.
Proof.
  intros Hc E. apply (f_equal weight) in E.
  rewrite destination_weight in E by exact Hc. lia.
Qed.

Lemma target_shape (d cat : ustring) :
  is_token cat = true ->
  let base := join d (u "organized") in
  let target := join base cat in
  (List.length base <= List.length target)%nat
  /\ target <> [] /\ endswith [sep] target = false.
Proof.
  intros Hc base target.
  assert (Hj : join base cat = base ++ cat \/ join base cat = base ++ [sep] ++ cat)
    by apply join_shape, no_sep_no_lead, token_no_sep, Hc.
  fold target in Hj.
  assert (Hne : cat <> []) by (apply is_token_spec in Hc; tauto).
  destruct Hj as [E|E]; rewrite E; repeat split.
  - rewrite length_app; lia.
  - intros H. apply app_eq_nil in H as [_ H]. contradiction.
  - now apply endswith_token.
  - rewrite !length_app; lia.
  - intros H. apply app_eq_nil in H as [_ H]. discriminate.
  - rewrite app_assoc. now apply endswith_token.
Qed.

Lemma destination_longer (p cat : ustring) :
  is_token cat = true ->
  let base := join (dirname p) (u "organized") in
  let target := join base cat in
  (List.length base < List.length (destination p cat))%nat
  /\ (List.length target < List.length (destination p cat))%nat.
Proof.
  intros Hc base target.
  destruct (target_shape (dirname p) cat Hc) as (Hl & Hne & He).
  fold base target in Hl, Hne, He.
  unfold destination. fold base target.
  rewrite join_adds_sep; auto using no_sep_no_lead, basename_no_sep.
  rewrite !length_app. simpl. lia.
Qed.

(** ** The file system operations *)

Lemma startswith_app (a b : ustring) : startswith a (a ++ b) = true.
Proof.
  induction a as [|x a IH]; simpl; [reflexivity|].
  now rewrite N.eqb_refl, IH.
Qed.

Lemma startswith_split (a b : ustring) :
  startswith a b = true -> exists r, b = a ++ r.
Proof.
  revert b; induction a as [|x a IH]; intros b; simpl.
  - intros _. now exists b.
  - destruct b as [|y b]; [discriminate|].
    intros H. apply andb_true_iff in H as [Hx Hr].
    apply N.eqb_eq in Hx; subst y.
    destruct (IH _ Hr) as [r ->]. now exists r.
Qed.

Lemma startswith_trans (a b c : ustring) :
  startswith a b = true -> startswith b c = true -> startswith a c = true.
Proof.
  intros H1 H2.
  apply startswith_split in H1 as [r1 ->].
  apply startswith_split in H2 as [r2 ->].
  rewrite <- app_assoc. apply startswith_app.
Qed.

Lemma startswith_length (a b : ustring) :
  startswith a b = true -> (List.length a <= List.length b)%nat.
Proof.
  intros H. apply startswith_split in H as [r ->]. rewrite length_app. lia.
Qed.

Lemma startswith_firstn (k : nat) (p : ustring) :
  startswith (firstn k p) p = true.
Proof.
  revert k; induction p as [|x p IH]; intros [|k]; simpl; auto.
  now rewrite N.eqb_refl, IH.
Qed.

(** Below a directory, below everything the directory starts. *)
Lemma under_prefix (q a b : ustring) :
  under q a = true -> startswith a b = true -> under q b = true.
Proof. unfold under. apply startswith_trans. Qed.

Lemma under_differs (q a : ustring) : under q a = true -> q <> a.
Proof.
  intros H E. subst. apply startswith_length in H.
  rewrite length_app in H. simpl in H. lia.
Qed.

(** The text up to and including the last occurrence ends with it. *)
Lemma rfind_prefix (c : N) (s : ustring) :
  (rfind c s = (-1)%Z /\ slice_to (rfind c s + 1) s = [])
  \/ exists a, slice_to (rfind c s + 1) s = a ++ [c].
Proof.
  unfold slice_to. induction s as [|x t IH]; simpl; [now left|].
  pose proof (rfind_lower_bound c t) as Hb.
  destruct (0 <=? rfind c t)%Z eqn:E.
  - apply Z.leb_le in E. right.
    replace (Z.to_nat (rfind c t + 1 + 1)) with (S (Z.to_nat (rfind c t + 1))) by lia.
    destruct IH as [[Hr _]|[a Ha]]; [lia|].
    exists (x :: a). simpl. now rewrite Ha.
  - apply Z.leb_gt in E. destruct (N.eqb x c) eqn:Ex.
    + right. exists []. apply N.eqb_eq in Ex. now subst.
    + now left.
Qed.

Lemma lstrip_by_split (f : N -> bool) (s : ustring) :
  exists t, s = t ++ lstrip_by f s /\ forallb f t = true.
Proof.
  induction s as [|c s IH]; simpl; [now exists []|].
  destruct (f c) eqn:E.
  - destruct IH as (t & Ht & Hf). exists (c :: t). simpl.
    rewrite E, Hf. split; [now rewrite <- Ht|reflexivity].
  - now exists [].
Qed.

Lemma rstrip_by_split (f : N -> bool) (s : ustring) :
  exists t, s = rstrip_by f s ++ t /\ forallb f t = true.
Proof.
  unfold rstrip_by. destruct (lstrip_by_split f (rev s)) as (t & Ht & Hf).
  exists (rev t). split.
  - rewrite <- rev_app_distr, <- Ht. now rewrite rev_involutive.
  - rewrite forallb_forall in *. intros x Hx. apply Hf. now apply in_rev.
Qed.

Lemma lstrip_by_head (f : N -> bool) (s a : ustring) (c : N) :
  lstrip_by f s = c :: a -> f c = false.
Proof.
  induction s as [|x s IH]; simpl; [discriminate|].
  destruct (f x) eqn:E; [exact IH|]. now intros [= <- _].
Qed.

Lemma rstrip_by_last (f : N -> bool) (s a : ustring) (c : N) :
  rstrip_by f s = a ++ [c] -> f c = false.
Proof.
  unfold rstrip_by. intros H. apply (f_equal (@rev N)) in H.
  rewrite rev_involutive, rev_app_distr in H. simpl in H.
  now apply lstrip_by_head in H.
Qed.

Lemma path_split_prefix (p : ustring) : startswith (fst (path_split p)) p = true.
Proof.
  unfold path_split, slice_to. simpl.
  set (k := Z.to_nat (rfind sep p + 1)).
  assert (Hp : startswith (firstn k p) p = true) by apply startswith_firstn.
  destruct (negb (is_empty (firstn k p)) && negb (all_seps (firstn k p)));
    [|exact Hp].
  destruct (rstrip_by_split is_sep (firstn k p)) as (t & Ht & _).
  eapply startswith_trans; [|exact Hp].
  rewrite Ht at 2. apply startswith_app.
Qed.

(** A head that is not made of separators only is a directory above. *)
Lemma path_split_under (p : ustring) :
  let h := fst (path_split p) in
  h <> [] -> all_seps h = false -> under h p = true.
Proof.
  unfold path_split, under. simpl.
  set (raw := slice_to (rfind sep p + 1) p).
  assert (Hp : startswith raw p = true) by apply startswith_firstn.
  destruct (negb (is_empty raw) && negb (all_seps raw)) eqn:C.
  - intros Hne Hns.
    destruct (rstrip_by_split is_sep raw) as (t & Ht & Hf).
    destruct t as [|x t].
    + rewrite app_nil_r in Ht.
      destruct (rfind_prefix sep p) as [[_ E]|[a E]]; fold raw in E.
      * rewrite E in C. discriminate.
      * rewrite E in Ht at 1. symmetry in Ht.
        apply rstrip_by_last in Ht. discriminate.
    + simpl in Hf. apply andb_true_iff in Hf as [Hx _].
      unfold is_sep in Hx. apply N.eqb_eq in Hx; subst x.
      eapply startswith_trans; [|exact Hp].
      rewrite Ht at 2.
      change (sep :: t) with ([sep] ++ t). rewrite app_assoc.
      apply startswith_app.
  - intros Hne Hns. exfalso.
    assert (He : is_empty raw = false).
    { clear C Hp Hns. destruct raw; [contradiction|reflexivity]. }
    rewrite He, Hns in C. discriminate.
Qed.

Lemma rfind_all_seps (s : ustring) :
  all_seps s = true -> rfind sep s = (Z.of_nat (List.length s) - 1)%Z.
Proof.
  induction s as [|x t IH]; [reflexivity|].
  unfold all_seps. cbn [rfind forallb List.length]. rewrite Nat2Z.inj_succ.
  intros H. apply andb_true_iff in H as [Hx Ht]. rewrite (IH Ht).
  unfold is_sep in Hx. rewrite Hx.
  destruct (0 <=? Z.of_nat (List.length t) - 1)%Z eqn:E.
  - lia.
  - apply Z.leb_gt in E. lia.
Qed.

Lemma dirname_all_seps (s : ustring) : all_seps s = true -> dirname s = s.
Proof.
  intros H. unfold dirname, slice_to. rewrite (rfind_all_seps _ H).
  replace (Z.to_nat (Z.of_nat (List.length s) - 1 + 1)) with (List.length s) by lia.
  rewrite firstn_all, H, andb_false_r. reflexivity.
Qed.

Lemma grows_refl (P : ustring -> Prop) (s : store) : grows P s s.
Proof. intros q. now left. Qed.

Lemma grows_trans (P Q : ustring -> Prop) (s1 s2 s3 : store) :
  grows P s1 s2 -> grows Q s2 s3 -> grows (fun q => P q \/ Q q) s1 s3.
Proof.
  intros H1 H2 q. destruct (H1 q) as [E1|(N1 & D1 & L1)];
    destruct (H2 q) as [E2|(N2 & D2 & L2)].
  - left. congruence.
  - right. rewrite <- E1. auto.
  - right. rewrite E2. auto.
  - congruence.
Qed.

Lemma grows_weaken (P Q : ustring -> Prop) (s s' : store) :
  (forall q, P q -> Q q) -> grows P s s' -> grows Q s s'.
Proof.
  intros Hle H q. destruct (H q) as [E|(N1 & D1 & L1)]; [now left|].
  right. auto.
Qed.

(** What exists is kept by a store that grows. *)
Lemma grows_keeps (P : ustring -> Prop) (s s' : store) (q : ustring) (x : node) :
  grows P s s' -> s q = Some x -> s' q = Some x.
Proof.
  intros H E. destruct (H q) as [E'|(N1 & _)]; congruence.
Qed.

(** A spelling longer than the directory made is left alone. *)
Lemma grows_beyond (name : ustring) (s s' : store) (q : ustring) :
  grows (created_by name) s s' ->
  (List.length name < List.length q)%nat -> s' q = s q.
Proof.
  intros H L. destruct (H q) as [E'|(_ & _ & L' & _)]; [exact E'|lia].
Qed.

Lemma os_mkdir_grows (name : ustring) (s s' : store) (r : result unit) :
  os_mkdir name s = (r, s') -> grows (created_by name) s s'.
Proof.
  unfold os_mkdir.
  destruct (is_empty name) eqn:En; [intros [= <- <-]; apply grows_refl|].
  destruct (path_exists s name) eqn:Ex; [intros [= <- <-]; apply grows_refl|].
  assert (Hn : s name = None).
  { unfold path_exists in Ex. now destruct (s name). }
  destruct (is_empty (dirname name) || isdir s (dirname name)) eqn:Ep.
  - intros [= <- <-] q. unfold fs_set.
    destruct (ueqb q name) eqn:Eq; [|now left].
    apply ueqb_eq in Eq; subst q. right.
    repeat split; auto.
    destruct (all_seps name) eqn:Ea; [|reflexivity].
    rewrite (dirname_all_seps _ Ea), En in Ep. unfold isdir in Ep.
    rewrite Hn in Ep. discriminate.
  - destruct (path_exists s (dirname name)); intros [= <- <-]; apply grows_refl.
Qed.

Lemma mkdir_exist_ok_grows (name : ustring) (s s' : store) (r : result unit) :
  mkdir_exist_ok name s = (r, s') -> grows (created_by name) s s'.
Proof.
  unfold mkdir_exist_ok.
  destruct (os_mkdir name s) as [[[]|e] s0] eqn:E; apply os_mkdir_grows in E.
  - now intros [= <- <-].
  - destruct (isdir s0 name); now intros [= <- <-].
Qed.

(** What is created for a directory above [name] is created for [name]. *)
Lemma created_by_head (name h q : ustring) :
  startswith h name = true ->
  (h <> [] -> all_seps h = false -> under h name = true) ->
  created_by h q -> created_by name q.
Proof.
  intros Hp Hu (L & Ha & Hq). repeat split; auto.
  - apply startswith_length in Hp. lia.
  - right. destruct Hq as [->|Hq].
    + apply Hu; [|exact Ha]. intros ->. discriminate.
    + eapply under_prefix; eauto.
Qed.

(** The head [os.makedirs] recurses on. *)
Lemma makedirs_head (name h t h' t' : ustring) :
  path_split name = (h, t) ->
  (if is_empty t then path_split h else (h, t)) = (h', t') ->
  startswith h' name = true
  /\ (h' <> [] -> all_seps h' = false -> under h' name = true).
Proof.
  intros Ep Ep'.
  pose proof (path_split_prefix name) as P1. rewrite Ep in P1. simpl in P1.
  pose proof (path_split_under name) as U1. rewrite Ep in U1. simpl in U1.
  destruct (is_empty t).
  - pose proof (path_split_prefix h) as P2. rewrite Ep' in P2. simpl in P2.
    pose proof (path_split_under h) as U2. rewrite Ep' in U2. simpl in U2.
    split; [eapply startswith_trans; eauto|].
    intros Hne Ha. eapply under_prefix; [now apply U2|exact P1].
  - inversion Ep'; subst. auto.
Qed.

(** [os.makedirs] only adds directories, at [name] and above it. *)
Lemma makedirs_rec_grows (fuel : nat) :
  forall name s r s',
    makedirs_rec fuel name s = (r, s') -> grows (created_by name) s s'.
Proof.
  induction fuel as [|fuel IH]; intros name s r s'; cbn [makedirs_rec];
    destruct (path_split name) as [h t] eqn:Ep;
    destruct (if is_empty t then path_split h else (h, t)) as [h' t'] eqn:Ep';
    destruct (negb (is_empty h') && negb (is_empty t') && negb (path_exists s h'));
    try apply mkdir_exist_ok_grows.
  - intros [= <- <-]. apply grows_refl.
  - destruct (makedirs_head _ _ _ _ _ Ep Ep') as [Hp Hu].
    assert (Hstep : forall s1 r1 s2,
               grows (created_by h') s s1 ->
               mkdir_exist_ok name s1 = (r1, s2) ->
               grows (created_by name) s s2).
    { intros s1 r1 s2 G1 Hm. apply mkdir_exist_ok_grows in Hm.
      eapply grows_weaken; [|exact (grows_trans _ _ _ _ _ G1 Hm)].
      intros q [Hq|Hq]; [eapply created_by_head; eauto|exact Hq]. }
    assert (Hstop : forall s1, grows (created_by h') s s1 ->
                               grows (created_by name) s s1).
    { intros s1. apply grows_weaken. intros q. now apply created_by_head. }
    destruct (makedirs_rec fuel h' s) as [[[]|e] s1] eqn:Er; apply IH in Er.
    + destruct (ueqb t' [dot]).
      * intros [= <- <-]. now apply Hstop.
      * now apply Hstep.
    + destruct e; try (intros [= <- <-]; now apply Hstop).
      destruct (ueqb t' [dot]).
      * intros [= <- <-]. now apply Hstop.
      * now apply Hstep.
Qed.

Lemma os_makedirs_grows (name : ustring) (s s' : store) (r : result unit) :
  os_makedirs name s = (r, s') -> grows (created_by name) s s'.
Proof. apply makedirs_rec_grows. Qed.

(** [shutil.move] of a regular file onto a spelling that is not a
    directory: the entry is taken from the source and put there. *)
Lemma shutil_move_file (src dst : ustring) (s s' : store) (c : list N) :
  s src = Some (File c) -> isdir s dst = false ->
  shutil_move src dst s = (Ok tt, s') ->
  s' = fs_set dst (Some (File c)) (fs_set src None s).
Proof.
  intros Hs Hd. unfold shutil_move, rename_entry. rewrite Hd, Hs.
  destruct (negb (is_empty (dirname dst) || isdir s (dirname dst)));
    [discriminate|].
  now intros [= <-].
Qed.

(** [shutil.move] of a spelling that names nothing raises and leaves the
    store as it is. *)
Lemma shutil_move_missing (src dst : ustring) (s : store) :
  s src = None ->
  exists e, shutil_move src dst s = (Raise e, s).
Proof.
  intros Hs. unfold shutil_move, rename_entry. rewrite Hs.
  destruct (s dst) as [[c|]|] eqn:Ed; unfold isdir; rewrite Ed; eauto.
  destruct (ueqb src dst) eqn:E.
  - apply ueqb_eq in E; subst. congruence.
  - destruct (path_exists s (join dst (shutil_basename src))); eauto.
Qed.

Lemma rstrip_no_trailing_sep (s : ustring) :
  endswith [sep] (rstrip_by is_sep s) = false.
Proof.
  destruct (rstrip_by is_sep s) as [|x r] eqn:E; [reflexivity|].
  assert (Hne : x :: r <> []) by discriminate.
  destruct (exists_last Hne) as (a & c & Ea). rewrite Ea in E.
  apply rstrip_by_last in E. rewrite Ea.
  unfold endswith. rewrite rev_app_distr.
  change (startswith (rev [sep]) (rev [c] ++ rev a)) with (N.eqb sep c && true).
  unfold is_sep in E. now rewrite N.eqb_sym, E.
Qed.

Lemma dirname_no_trailing_sep (p : ustring) :
  all_seps (dirname p) = false -> endswith [sep] (dirname p) = false.
Proof.
  unfold dirname.
  set (raw := slice_to (rfind sep p + 1) p).
  destruct (negb (is_empty raw) && negb (all_seps raw)) eqn:C.
  - intros _. apply rstrip_no_trailing_sep.
  - intros H. exfalso. rewrite H in C. cbn [negb] in C.
    rewrite andb_true_r in C. apply negb_false_iff in C.
    clearbody raw. destruct raw; discriminate.
Qed.

(** The destination spelled out, for a parent directory that is neither
    empty nor the root. *)
Lemma destination_spelled (p cat : ustring) :
  is_token cat = true ->
  all_seps (dirname p) = false ->
  destination p cat =
    dirname p ++ u "/organized/" ++ cat ++ u "/" ++ basename p.
Proof.
  intros Hc Hd.
  assert (Hne : dirname p <> []) by (intros E; rewrite E in Hd; discriminate).
  pose proof (dirname_no_trailing_sep p Hd) as He.
  destruct (target_shape (dirname p) cat Hc) as (_ & Htn & Hte).
  unfold destination.
  rewrite (join_adds_sep _ (basename p));
    auto using no_sep_no_lead, basename_no_sep.
  assert (Eb : join (dirname p) (u "organized") = dirname p ++ [sep] ++ u "organized")
    by (apply join_adds_sep; auto).
  rewrite (join_adds_sep _ cat).
  - rewrite Eb, <- !app_assoc. reflexivity.
  - apply no_sep_no_lead, token_no_sep, Hc.
  - rewrite Eb. intros H. apply app_eq_nil in H as [H _]. contradiction.
  - rewrite Eb, app_assoc. now apply endswith_token.
Qed.

(** ** Where the file goes *)

Lemma fs_set_same (p : ustring) (n : option node) (s : store) :
  fs_set p n s p = n.
Proof. unfold fs_set. now rewrite ueqb_refl. Qed.

Lemma fs_set_other (p q : ustring) (n : option node) (s : store) :
  q <> p -> fs_set p n s q = s q.
Proof. intros H. unfold fs_set. apply ueqb_neq in H. now rewrite H. Qed.

(** C3, as the code has it.  After an invocation that returns, [new_path]
    is the parent directory of [filepath] joined with "organized", then
    with the category, then with the base name of [filepath], which for a
    parent that is neither empty nor the root reads
    parent/organized/category/basename; and when [filepath] named a
    regular file and [new_path] did not name a directory, the file is gone
    from [filepath] and is at [new_path]. *)
Theorem invoke_relocates (st st' : FileState) (w w' : World) :
  app_invoke st w = (Ok tt, st', w') ->
  filepath st' = filepath st
  /\ new_path st' =
       join (join (join (dirname (filepath st)) (u "organized")) (category st'))
            (basename (filepath st))
  /\ (all_seps (dirname (filepath st)) = false ->
      new_path st' =
        dirname (filepath st) ++ u "/organized/" ++ category st' ++ u "/"
        ++ basename (filepath st))
  /\ forall c,
       fs w (filepath st) = Some (File c) ->
       isdir (fs w) (new_path st') = false ->
       fs w' (filepath st) = None /\ fs w' (new_path st') = Some (File c).
Proof.
  intros H.
  apply invoke_returns in H as (st1 & w1 & st2 & H1 & H2 & ->).
  apply classify_returns in H1 as (v & Hv & -> & Hfs).
  apply move_returns in H2 as (s1 & s2 & s3 & M1 & M2 & M3 & -> & ->).
  cbn [filepath category new_path logs fs] in *.
  split; [reflexivity|split; [reflexivity|split]].
  { intros Hd. now apply destination_spelled. }
  intros c Hsrc Hdst.
  set (p := filepath st) in *.
  fold (destination p v) in *.
  apply os_makedirs_grows in M1, M2.
  destruct (destination_longer p v Hv) as [L1 L2].
  assert (Hsrc2 : s2 p = Some (File c)).
  { eapply grows_keeps; [exact M2|]. eapply grows_keeps; [exact M1|].
    now rewrite Hfs. }
  assert (Hdst2 : s2 (destination p v) = fs w (destination p v)).
  { rewrite (grows_beyond _ _ _ _ M2 L2), (grows_beyond _ _ _ _ M1 L1).
    now rewrite Hfs. }
  assert (Hdir : isdir s2 (destination p v) = false).
  { unfold isdir in *. now rewrite Hdst2. }
  rewrite (shutil_move_file _ _ _ _ _ Hsrc2 Hdir M3).
  split.
  - rewrite fs_set_other by (intros E; symmetry in E; revert E; now apply destination_fresh).
    apply fs_set_same.
  - apply fs_set_same.
Qed.

(** ** Failures *)

(** An invocation that raises ends the batch: the files after it are not
    submitted. *)
Lemma organize_loop_aborts (after : ustring -> ustring -> World -> World)
    (folder file : ustring) (rest report : list ustring)
    (w w' : World) (st' : FileState) (e : exn) :
  app_invoke (fresh_record (join folder file)) w = (Raise e, st', w') ->
  organize_loop after folder (file :: rest) report w = Aborted e report w'.
Proof. intros H. simpl. now rewrite H. Qed.

(** C7, as the code has it.  When the move stage raises after the classify
    stage returned, whatever happened to the world in between, the record
    is the one classify left: category set, [new_path] as it was, and the
    log extended by the classify entry only.  In an invocation the
    exception leaves the graph, and in the batch loop it ends the batch. *)
Theorem move_failure_keeps_classified_record
    (st st1 st2 : FileState) (w w1 w_move w2 : World) (e : exn) :
  classify_file st w = (Ok tt, st1, w1) ->
  move_file st1 w_move = (Raise e, st2, w2) ->
  st2 = st1
  /\ category st2 <> []
  /\ new_path st2 = new_path st
  /\ logs st2 =
       logs st ++ [u "Classified " ++ basename (filepath st) ++ u " as " ++ category st2]
  /\ (w_move = w1 ->
      app_invoke st w = (Raise e, st2, w2)
      /\ forall after folder file rest report,
           st = fresh_record (join folder file) ->
           organize_loop after folder (file :: rest) report w = Aborted e report w2).
Proof.
  intros H1 H2.
  pose proof (move_raises _ _ _ _ _ H2) as (-> & _).
  pose proof (classify_appends _ _ _ _ H1) as L.
  pose proof (classify_returns _ _ _ _ H1) as (v & Hv & E & _).
  apply is_token_spec in Hv as [Hne _].
  split; [reflexivity|]. split; [now rewrite E|]. split; [now rewrite E|].
  split; [exact L|].
  intros ->.
  assert (Hi : app_invoke st w = (Raise e, st1, w2)).
  { unfold app_invoke, bind. rewrite H1. now rewrite H2. }
  split; [exact Hi|].
  intros after folder file rest report ->.
  now apply organize_loop_aborts with (st' := st1).
Qed.

(** C9, as the code has it.  When the call to the service raises, nothing
    catches it: [classify_file] raises, the invocation raises, and the
    batch loop ends.  The record is the one that was passed in (no
    category written, no log entry, no default category), the file system
    is untouched, and the one prompt sent is recorded. *)
Theorem oracle_failure_propagates (st : FileState) (w : World) :
  dict_get mapping (extension (basename (filepath st))) = None ->
  llm_reply w (llm_calls w) (classify_prompt (basename (filepath st))) = None ->
  let w' := mkWorld (fs w) (llm_reply w)
              (llm_calls w ++ [classify_prompt (basename (filepath st))]) in
  classify_file st w = (Raise LLMError, st, w')
  /\ app_invoke st w = (Raise LLMError, st, w')
  /\ forall after folder file rest report,
       st = fresh_record (join folder file) ->
       organize_loop after folder (file :: rest) report w = Aborted LLMError report w'.
Proof.
  intros Hk Hr w'.
  pose proof (classify_miss_down _ _ Hk Hr) as Hc. fold w' in Hc.
  assert (Hi : app_invoke st w = (Raise LLMError, st, w')).
  { unfold app_invoke, bind. now rewrite Hc. }
  split; [exact Hc|split; [exact Hi|]].
  intros after folder file rest report ->.
  now apply organize_loop_aborts with (st' := fresh_record (join folder file)).
Qed.

(** [shutil.move] of a directory to a place below itself raises and
    leaves the store as it is. *)
Lemma shutil_move_below (src dst : ustring) (s : store) :
  s src = Some Dir -> under src dst = true ->
  exists e, shutil_move src dst s = (Raise e, s).
Proof.
  intros Hs Hu. unfold shutil_move.
  assert (Hr : forall d, under src d = true ->
                 exists e, rename_entry src d s = (Raise e, s)).
  { intros d Hd. unfold rename_entry. rewrite Hs, Hd.
    destruct (negb (is_empty (dirname d) || isdir s (dirname d))); eauto. }
  destruct (isdir s dst); [|now apply Hr].
  pose proof (under_differs _ _ Hu) as Hne. apply ueqb_neq in Hne. rewrite Hne.
  destruct (path_exists s (join dst (shutil_basename src))); [eauto|].
  apply Hr. eapply under_prefix; [exact Hu|].
  destruct (join_shape dst (shutil_basename src)) as [-> | ->];
    [apply no_sep_no_lead, basename_no_sep| |]; apply startswith_app.
Qed.

(** Everything [move_file] creates is a directory above the destination. *)
Lemma created_above_destination (p cat q : ustring) :
  is_token cat = true ->
  let base := join (dirname p) (u "organized") in
  let target := join base cat in
  created_by base q \/ created_by target q ->
  under q (destination p cat) = true.
Proof.
  intros Hc base target Hq.
  assert (Hb : base <> [] /\ endswith [sep] base = false).
  { unfold base.
    destruct (join_shape (dirname p) (u "organized")) as [E|E];
      [reflexivity| |]; rewrite E; split.
    - intros H. apply app_eq_nil in H as [_ H]. discriminate.
    - now apply endswith_token.
    - intros H. apply app_eq_nil in H as [_ H]. discriminate.
    - rewrite app_assoc. now apply endswith_token. }
  destruct Hb as [Hbn Hbe].
  assert (Et : target = base ++ [sep] ++ cat).
  { apply join_adds_sep; auto. apply no_sep_no_lead, token_no_sep, Hc. }
  destruct (target_shape (dirname p) cat Hc) as (_ & Htn & Hte).
  fold base target in Htn, Hte.
  assert (Ed : destination p cat = target ++ [sep] ++ basename p).
  { unfold destination. fold base target.
    apply join_adds_sep; auto. apply no_sep_no_lead, basename_no_sep. }
  assert (Ubt : under base target = true).
  { unfold under. rewrite Et, app_assoc. apply startswith_app. }
  assert (Utd : under target (destination p cat) = true).
  { unfold under. rewrite Ed, app_assoc. apply startswith_app. }
  assert (Ptd : startswith target (destination p cat) = true).
  { rewrite Ed. apply startswith_app. }
  assert (Pbt : startswith base target = true).
  { rewrite Et. apply startswith_app. }
  destruct Hq as [(_ & _ & [->|Hq])|(_ & _ & [->|Hq])].
  - eapply under_prefix; eauto.
  - eapply under_prefix; [|exact Ptd]. eapply under_prefix; eauto.
  - exact Utd.
  - eapply under_prefix; eauto.
Qed.

(** [move_file] on a spelling that names nothing raises, with the record
    it was given. *)
Lemma move_missing_raises (st : FileState) (w : World) :
  is_token (category st) = true ->
  fs w (filepath st) = None ->
  exists e w', move_file st w = (Raise e, st, w').
Proof.
  intros Hc Hs. unfold move_file, bind, get_state, on_fs.
  set (base := join (dirname (filepath st)) (u "organized")).
  set (target := join base (category st)).
  set (dst := join target (basename (filepath st))).
  destruct (os_makedirs base (fs w)) as [[[]|e1] s1] eqn:M1; [|eauto].
  cbn [fs llm_reply llm_calls].
  destruct (os_makedirs target s1) as [[[]|e2] s2] eqn:M2; [|eauto].
  cbn [fs llm_reply llm_calls].
  apply os_makedirs_grows in M1, M2.
  assert (Hm : exists e, shutil_move (filepath st) dst s2 = (Raise e, s2)).
  { destruct (s2 (filepath st)) as [x|] eqn:E2; [|now apply shutil_move_missing].
    assert (Hx : x = Dir /\ (created_by base (filepath st)
                             \/ created_by target (filepath st))).
    { destruct (M2 (filepath st)) as [E|(N2 & D2 & C2)].
      - destruct (M1 (filepath st)) as [E'|(N1 & D1 & C1)]; [congruence|].
        split; [congruence|now left].
      - split; [congruence|now right]. }
    destruct Hx as [-> Hx].
    apply shutil_move_below; [exact E2|].
    change dst with (destination (filepath st) (category st)).
    now apply created_above_destination. }
  destruct Hm as [e ->]. eauto.
Qed.

Lemma filter_twice {A} (f : A -> bool) (l : list A) :
  filter f (filter f l) = filter f l.
Proof.
  induction l as [|x l IH]; simpl; [reflexivity|].
  destruct (f x) eqn:E; simpl; [rewrite E|]; now rewrite IH.
Qed.

(** C8, as the code has it.  Nothing checks the path before the classify
    stage: [classify_file] sets the category and appends its entry without
    looking at the file system.  A path that names nothing is rejected
    later, in the move stage, with the classification still in the record.
    Only the batch loop looks for regular files, and it drops the other
    entries of the listing without an error. *)
Theorem missing_path_rejected_by_move :
  (forall st w v,
      dict_get mapping (extension (basename (filepath st))) = Some v ->
      classify_file st w =
        (Ok tt,
         mkState (filepath st) v (new_path st)
           (logs st ++ [u "Classified " ++ basename (filepath st) ++ u " as " ++ v]),
         w))
  /\ (forall st w st1 w1,
      fs w (filepath st) = None ->
      classify_file st w = (Ok tt, st1, w1) ->
      exists e w2,
        app_invoke st w = (Raise e, st1, w2)
        /\ category st1 <> []
        /\ new_path st1 = new_path st
        /\ logs st1 =
             logs st ++ [u "Classified " ++ basename (filepath st) ++ u " as "
                         ++ category st1])
  /\ (forall after folder listing w,
      organize after folder listing w =
      organize after folder (filter (fun f => isfile (fs w) (join folder f)) listing) w).
Proof.
  split; [|split].
  - intros st w v H. now apply classify_hit.
  - intros st w st1 w1 Hs H1.
    pose proof (classify_appends _ _ _ _ H1) as L.
    pose proof (classify_returns _ _ _ _ H1) as (v & Hv & E & Hfs).
    destruct (move_missing_raises st1 w1) as (e & w2 & Hm).
    + now rewrite E.
    + rewrite Hfs, E. exact Hs.
    + exists e, w2. split; [|split; [|split]].
      * unfold app_invoke, bind. rewrite H1. now rewrite Hm.
      * rewrite E. simpl. apply is_token_spec in Hv. tauto.
      * now rewrite E.
      * exact L.
  - intros after folder listing w. unfold organize.
    now rewrite filter_twice.
Qed.

(** ** The depth of [os.makedirs] *)

Lemma path_split_shorter (p h t : ustring) :
  path_split p = (h, t) -> is_empty t = false ->
  (List.length h < List.length p)%nat.
Proof.
  unfold path_split, slice_to, slice_from.
  set (k := Z.to_nat (rfind sep p + 1)). intros [= <- <-] Ht.
  assert (Hk : (k < List.length p)%nat).
  { destruct (Nat.lt_ge_cases k (List.length p)) as [L|L]; [exact L|].
    rewrite skipn_all2 in Ht by exact L. discriminate. }
  assert (Hf : (List.length (firstn k p) <= k)%nat) by apply firstn_le_length.
  destruct (negb (is_empty (firstn k p)) && negb (all_seps (firstn k p))).
  - pose proof (length_rstrip is_sep (firstn k p)). lia.
  - lia.
Qed.

Lemma mkdir_exist_ok_error (name : ustring) (s s' : store) (e : exn) :
  mkdir_exist_ok name s = (Raise e, s') -> e <> RecursionError.
Proof.
  unfold mkdir_exist_ok, os_mkdir.
  destruct (is_empty name).
  { destruct (isdir s name); intros [= <- _]; discriminate. }
  destruct (path_exists s name).
  { destruct (isdir s name); intros [= <- _]; discriminate. }
  destruct (is_empty (dirname name) || isdir s (dirname name)); [discriminate|].
  destruct (path_exists s (dirname name));
    destruct (isdir s name); intros [= <- _]; discriminate.
Qed.

(** The length of the name is fuel enough: the bound on the depth is
    never what makes [os.makedirs] raise. *)
Lemma makedirs_rec_fuel (fuel : nat) :
  forall name s e s',
    (List.length name <= fuel)%nat ->
    makedirs_rec fuel name s = (Raise e, s') -> e <> RecursionError.
Proof.
  induction fuel as [|fuel IH]; intros name s e s' Hlen; cbn [makedirs_rec];
    destruct (path_split name) as [h t] eqn:Ep;
    destruct (if is_empty t then path_split h else (h, t)) as [h' t'] eqn:Ep';
    destruct (negb (is_empty h') && negb (is_empty t') && negb (path_exists s h'))
      eqn:Ed;
    try apply mkdir_exist_ok_error.
  - (* no fuel: the name is empty, and so is its head *)
    exfalso. destruct name; [|simpl in Hlen; lia].
    vm_compute in Ep. inversion Ep; subst. vm_compute in Ep'.
    inversion Ep'; subst. discriminate.
  - assert (Hh : (List.length h' < List.length name)%nat).
    { apply andb_true_iff in Ed as [Ed _]. apply andb_true_iff in Ed as [_ Et].
      apply negb_true_iff in Et.
      destruct (is_empty t) eqn:E.
      - apply path_split_shorter in Ep'; [|exact Et].
        pose proof (path_split_head_length name) as L. rewrite Ep in L.
        simpl in L. lia.
      - inversion Ep'; subst. eapply path_split_shorter; eauto. }
    destruct (makedirs_rec fuel h' s) as [[[]|e0] s1] eqn:Er.
    + destruct (ueqb t' [dot]); [discriminate|apply mkdir_exist_ok_error].
    + apply IH in Er; [|lia].
      destruct e0; try (intros [= <- _]; discriminate);
        try contradiction.
      destruct (ueqb t' [dot]); [discriminate|apply mkdir_exist_ok_error].
Qed.

Lemma os_makedirs_error (name : ustring) (s s' : store) (e : exn) :
  os_makedirs name s = (Raise e, s') -> e <> RecursionError.
Proof. apply makedirs_rec_fuel. lia. Qed.

(** ** More on [clean_category] *)

Lemma lstrip_by_drops (f : N -> bool) (pre s : ustring) :
  Forall (fun c => f c = true) pre -> lstrip_by f (pre ++ s) = lstrip_by f s.
Proof.
  induction 1 as [|c pre Hc _ IH]; simpl; [reflexivity|]. now rewrite Hc.
Qed.

Lemma rstrip_by_drops (f : N -> bool) (s post : ustring) :
  Forall (fun c => f c = true) post -> rstrip_by f (s ++ post) = rstrip_by f s.
Proof.
  intros H. unfold rstrip_by. rewrite rev_app_distr.
  rewrite lstrip_by_drops by now apply Forall_rev. reflexivity.
Qed.

Lemma lstrip_by_stops (f : N -> bool) (c : N) (s : ustring) :
  f c = false -> lstrip_by f (c :: s) = c :: s.
Proof. intros H. simpl. now rewrite H. Qed.

Lemma rstrip_by_stops (f : N -> bool) (c : N) (s : ustring) :
  f c = false -> rstrip_by f (s ++ [c]) = s ++ [c].
Proof.
  intros H. unfold rstrip_by. rewrite rev_app_distr. simpl.
  rewrite H. simpl. now rewrite rev_involutive.
Qed.

(** A character that lowers into the alphabet is ASCII and no white space. *)
Lemma lowers_to_allowed (c : N) :
  allowed (lower_cp c) = true -> is_ascii c /\ ascii_isspace c = false.
Proof.
  unfold lower_cp, is_ascii, ascii_isspace.
  destruct ((65 <=? c) && (c <=? 90)) eqn:E.
  - apply andb_true_iff in E as [E1 E2]. apply N.leb_le in E1, E2.
    intros _. split; [lia|].
    apply orb_false_iff; split; apply andb_false_iff; right; apply N.leb_gt; lia.
  - intros H. apply allowed_cases in H. split; [lia|].
    apply orb_false_iff; split; apply andb_false_iff; right; apply N.leb_gt; lia.
Qed.

(** [strip] takes the white space off both ends of a padded word whose own
    ends are not white space. *)
Lemma strip_padding (pre word post : ustring) :
  Forall (fun c => isspace c = true) pre ->
  Forall (fun c => isspace c = true) post ->
  word <> [] ->
  Forall (fun c => isspace c = false) word ->
  strip (pre ++ word ++ post) = word.
Proof.
  intros Hpre Hpost Hne Hw. unfold strip, strip_by.
  rewrite lstrip_by_drops by exact Hpre.
  destruct word as [|c word]; [contradiction|].
  inversion Hw as [|? ? Hc Hrest]; subst.
  change ((c :: word) ++ post) with (c :: (word ++ post)).
  rewrite lstrip_by_stops by exact Hc.
  change (c :: (word ++ post)) with ((c :: word) ++ post).
  rewrite rstrip_by_drops by exact Hpost.
  now apply rstrip_by_keeps.
Qed.

(** X1.  A label written in any letter case, with white space around it,
    is normalized to the label in lower case: when the ASCII lowering of
    [word] is a token, [clean_category] of the padded word is that
    token. *)
Theorem clean_category_padded_label (pre word post : ustring) :
  Forall (fun c => isspace c = true) pre ->
  Forall (fun c => isspace c = true) post ->
  is_token (ascii_lower word) = true ->
  clean_category (pre ++ word ++ post) = ascii_lower word.
Proof.
  intros Hpre Hpost Ht.
  pose proof Ht as Ht'. apply is_token_spec in Ht' as [Hne Hall].
  assert (Hw : Forall (fun c => is_ascii c /\ ascii_isspace c = false) word).
  { unfold ascii_lower in Hall. rewrite Forall_map in Hall.
    eapply Forall_impl; [|exact Hall]. intros c. apply lowers_to_allowed. }
  assert (Hascii : Forall is_ascii word)
    by (eapply Forall_impl; [|exact Hw]; intros c Hc; exact (proj1 Hc)).
  assert (Hns : Forall (fun c => isspace c = false) word).
  { eapply Forall_impl; [|exact Hw]. intros c [Ha Hs]. simpl.
    now rewrite isspace_ascii. }
  assert (Hwne : word <> []) by (intros ->; now apply Hne).
  unfold clean_category.
  rewrite (strip_padding pre word post Hpre Hpost Hwne Hns).
  rewrite (lower_ascii _ Hascii), (filter_keeps _ Hall).
  destruct (ascii_lower word); [contradiction|reflexivity].
Qed.

Lemma lstrip_by_all (f : N -> bool) (s : ustring) :
  Forall (fun c => f c = true) s -> lstrip_by f s = [].
Proof.
  intros H. rewrite <- (app_nil_r s). now rewrite lstrip_by_drops.
Qed.

(** X2.  A reply that is empty or white space only is normalized to the
    default category. *)
Theorem clean_category_blank (x : ustring) :
  Forall (fun c => isspace c = true) x -> clean_category x = u "others".
Proof.
  intros H. unfold clean_category, strip, strip_by.
  rewrite (lstrip_by_all _ _ H).
  change (rstrip_by isspace []) with (@nil N).
  rewrite lower_ascii by constructor. reflexivity.
Qed.

(** ** What is sent to the service *)

(** Whatever its outcome, [classify_file] leaves the file system and the
    path alone, and sends one prompt exactly when the table has no entry. *)
Lemma classify_world (st st' : FileState) (w w' : World) (r : result unit) :
  classify_file st w = (r, st', w') ->
  fs w' = fs w /\ filepath st' = filepath st /\ new_path st' = new_path st
  /\ llm_reply w' = llm_reply w
  /\ llm_calls w' =
       llm_calls w ++
       match dict_get mapping (extension (basename (filepath st))) with
       | Some _ => []
       | None => [classify_prompt (basename (filepath st))]
       end.
Proof.
  intros H.
  destruct (dict_get mapping (extension (basename (filepath st)))) as [v|] eqn:E.
  - rewrite (classify_hit _ _ v E) in H. inversion H; subst. simpl.
    rewrite app_nil_r. auto.
  - destruct (llm_reply w (llm_calls w) (classify_prompt (basename (filepath st))))
      as [content|] eqn:R.
    + rewrite (classify_miss_reply _ _ content E R) in H. inversion H; subst.
      simpl. auto.
    + rewrite (classify_miss_down _ _ E R) in H. inversion H; subst.
      simpl. auto.
Qed.

(** Whatever its outcome, [move_file] sends nothing to the service. *)
Lemma move_world (st st' : FileState) (w w' : World) (r : result unit) :
  move_file st w = (r, st', w') ->
  llm_reply w' = llm_reply w /\ llm_calls w' = llm_calls w
  /\ filepath st' = filepath st /\ category st' = category st.
Proof.
  destruct r as [[]|e]; intros H.
  - apply move_returns in H as (s1 & s2 & s3 & _ & _ & _ & -> & ->).
    simpl. auto.
  - apply move_raises in H as (-> & H1 & H2). auto.
Qed.

(** X3.  An invocation, whatever its outcome, sends no prompt when the
    extension is in the table and exactly one when it is not: the
    classification prompt, which names the file by its base name only. *)
Theorem invoke_prompts (st st' : FileState) (w w' : World) (r : result unit) :
  app_invoke st w = (r, st', w') ->
  llm_calls w' =
    llm_calls w ++
    match dict_get mapping (extension (basename (filepath st))) with
    | Some _ => []
    | None => [classify_prompt (basename (filepath st))]
    end.
Proof.
  destruct r as [[]|e]; intros H.
  - apply invoke_returns in H as (st1 & w1 & st2 & H1 & H2 & _).
    apply classify_world in H1 as (_ & _ & _ & _ & L1).
    apply move_world in H2 as (_ & L2 & _). congruence.
  - apply invoke_raises in H as [H|(st1 & w1 & H1 & H2)].
    + now apply classify_world in H as (_ & _ & _ & _ & L1).
    + apply classify_world in H1 as (_ & _ & _ & _ & L1).
      apply move_world in H2 as (_ & L2 & _). congruence.
Qed.

(** X4.  A name that ends in '.', like an empty name, has the empty
    extension, which is no key of the table: the service is asked, and the
    category is its normalized reply. *)
Theorem classify_empty_extension (st : FileState) (w : World) (content : ustring) :
  (basename (filepath st) = [] \/ exists pre, basename (filepath st) = pre ++ [dot]) ->
  llm_reply w (llm_calls w) (classify_prompt (basename (filepath st))) = Some content ->
  extension (basename (filepath st)) = []
  /\ exists st' w',
       classify_file st w = (Ok tt, st', w')
       /\ category st' = clean_category content
       /\ llm_calls w' = llm_calls w ++ [classify_prompt (basename (filepath st))].
Proof.
  intros Hn Hr.
  assert (E : extension (basename (filepath st)) = []).
  { destruct Hn as [-> | [pre ->]].
    - unfold extension. simpl. now rewrite lower_ascii by constructor.
    - rewrite (extension_after_dot _ pre []); [|reflexivity|intros []].
      now rewrite lower_ascii by constructor. }
  split; [exact E|].
  do 2 eexists. split; [apply classify_miss_reply|split; reflexivity].
  - rewrite E. reflexivity.
  - exact Hr.
Qed.

(** ** What a failed invocation leaves behind *)

Lemma rename_entry_raises (src dst : ustring) (s s' : store) (e : exn) :
  rename_entry src dst s = (Raise e, s') -> s' = s.
Proof.
  unfold rename_entry. destruct (s src) as [[c|]|]; [| |now intros [= _ <-]].
  - destruct (negb (is_empty (dirname dst) || isdir s (dirname dst)));
      [now intros [= _ <-]|discriminate].
  - destruct (negb (is_empty (dirname dst) || isdir s (dirname dst)));
      [now intros [= _ <-]|].
    destruct (under src dst); [now intros [= _ <-]|].
    destruct (path_exists s dst); [now intros [= _ <-]|discriminate].
Qed.

(** [shutil.move] that raises has changed nothing. *)
Lemma shutil_move_raises (src dst : ustring) (s s' : store) (e : exn) :
  shutil_move src dst s = (Raise e, s') -> s' = s.
Proof.
  unfold shutil_move. destruct (isdir s dst); [|apply rename_entry_raises].
  destruct (ueqb src dst); [discriminate|].
  destruct (path_exists s (join dst (shutil_basename src)));
    [now intros [= _ <-]|apply rename_entry_raises].
Qed.

(** Directories only are added to [s] to give [s']. *)
Lemma grows_directories (P : ustring -> Prop) (s s' : store) :
  grows P s s' -> grows (fun _ => True) s s'.
Proof. apply grows_weaken. auto. Qed.

Lemma grows_compose (s1 s2 s3 : store) :
  grows (fun _ => True) s1 s2 -> grows (fun _ => True) s2 s3 ->
  grows (fun _ => True) s1 s3.
Proof.
  intros H1 H2. eapply grows_weaken; [|exact (grows_trans _ _ _ _ _ H1 H2)].
  auto.
Qed.

(** When [move_file] raises, the store has at most gained directories. *)
Lemma move_raises_store (st st' : FileState) (w w' : World) (e : exn) :
  move_file st w = (Raise e, st', w') -> grows (fun _ => True) (fs w) (fs w').
Proof.
  unfold move_file, bind, get_state, on_fs.
  set (base := join (dirname (filepath st)) (u "organized")).
  set (target := join base (category st)).
  set (dst := join target (basename (filepath st))).
  destruct (os_makedirs base (fs w)) as [[[]|e1] s1] eqn:M1;
    apply os_makedirs_grows, grows_directories in M1;
    [|intros [= _ _ <-]; exact M1].
  cbn [fs llm_reply llm_calls].
  destruct (os_makedirs target s1) as [[[]|e2] s2] eqn:M2;
    apply os_makedirs_grows, grows_directories in M2;
    pose proof (grows_compose _ _ _ M1 M2) as G;
    [|intros [= _ _ <-]; exact G].
  cbn [fs llm_reply llm_calls].
  destruct (shutil_move (filepath st) dst s2) as [[[]|e3] s3] eqn:M3.
  - discriminate.
  - apply shutil_move_raises in M3; subst s3. intros [= _ _ <-]. exact G.
Qed.

(** An invocation that raises has at most added directories. *)
Lemma invoke_raise_grows (st st' : FileState) (w w' : World) (e : exn) :
  app_invoke st w = (Raise e, st', w') -> grows (fun _ => True) (fs w) (fs w').
Proof.
  intros H. apply invoke_raises in H as [H|(st1 & w1 & H1 & H2)].
  - apply classify_world in H as (-> & _). apply grows_refl.
  - apply classify_world in H1 as (<- & _). now apply move_raises_store in H2.
Qed.

(** X5.  An invocation that raises has removed nothing and replaced
    nothing: every spelling names what it named before, except that
    spellings that named nothing may now name new directories.  The file
    that was to be moved is where it was. *)
Theorem invoke_failure_keeps_files (st st' : FileState) (w w' : World) (e : exn) :
  app_invoke st w = (Raise e, st', w') ->
  (forall q, fs w' q = fs w q \/ (fs w q = None /\ fs w' q = Some Dir))
  /\ (forall q n, fs w q = Some n -> fs w' q = Some n)
  /\ (forall c, fs w (filepath st) = Some (File c) ->
                fs w' (filepath st) = Some (File c)).
Proof.
  intros H. pose proof (invoke_raise_grows _ _ _ _ _ H) as G.
  split; [|split].
  - intros q. destruct (G q) as [E|(E1 & E2 & _)]; auto.
  - intros q n. now apply grows_keeps with (P := fun _ => True).
  - intros c. now apply grows_keeps with (P := fun _ => True).
Qed.

(** ** What a completed invocation has done to the file system *)

Lemma under_weight (d q : ustring) :
  under d q = true -> (weight d <= weight q)%nat.
Proof.
  unfold under. intros H. apply startswith_split in H as [r ->].
  rewrite !weight_app. lia.
Qed.

Lemma weight_differs (a b : ustring) : (weight a < weight b)%nat -> a <> b.
Proof. intros H E. subst. lia. Qed.

(** The place [shutil.move] really writes to. *)
Lemma real_destination_weight (src dst : ustring) :
  (weight dst <= weight (join dst (shutil_basename src)))%nat.
Proof.
  rewrite weight_join by (apply no_sep_no_lead, basename_no_sep). lia.
Qed.

(** After a rename to a heavier spelling the source names nothing. *)
Lemma rename_entry_source (src dst : ustring) (s s' : store) :
  rename_entry src dst s = (Ok tt, s') ->
  (weight src < weight dst)%nat -> s' src = None.
Proof.
  intros H Hw. pose proof (weight_differs _ _ Hw) as Hne.
  unfold rename_entry in H. destruct (s src) as [[c|]|]; [| |discriminate].
  - destruct (negb (is_empty (dirname dst) || isdir s (dirname dst)));
      [discriminate|].
    inversion H; subst. rewrite fs_set_other by exact Hne. apply fs_set_same.
  - destruct (negb (is_empty (dirname dst) || isdir s (dirname dst)));
      [discriminate|].
    destruct (under src dst); [discriminate|].
    destruct (path_exists s dst); [discriminate|].
    inversion H; subst. unfold move_tree.
    apply ueqb_neq in Hne. rewrite Hne.
    destruct (under dst src) eqn:U; [apply under_weight in U; lia|].
    now rewrite ueqb_refl.
Qed.

Lemma shutil_move_source (src dst : ustring) (s s' : store) :
  shutil_move src dst s = (Ok tt, s') ->
  (weight src < weight dst)%nat -> s' src = None.
Proof.
  intros H Hw. unfold shutil_move in H.
  destruct (isdir s dst); [|now apply rename_entry_source with (dst := dst) (s := s)].
  pose proof (weight_differs _ _ Hw) as Hne. apply ueqb_neq in Hne.
  rewrite Hne in H.
  destruct (path_exists s (join dst (shutil_basename src))); [discriminate|].
  apply rename_entry_source in H; [exact H|].
  pose proof (real_destination_weight src dst). lia.
Qed.

(** [shutil.move] of a regular file, wherever it lands. *)
Lemma shutil_move_file_lands (src dst : ustring) (s s' : store) (c : list N) :
  s src = Some (File c) -> src <> dst ->
  shutil_move src dst s = (Ok tt, s') ->
  s' = fs_set (if isdir s dst then join dst (shutil_basename src) else dst)
         (Some (File c)) (fs_set src None s).
Proof.
  intros Hs Hne. unfold shutil_move, rename_entry.
  apply ueqb_neq in Hne. destruct (isdir s dst).
  - rewrite Hne.
    destruct (path_exists s (join dst (shutil_basename src))); [discriminate|].
    rewrite Hs.
    destruct (negb (is_empty (dirname (join dst (shutil_basename src)))
                    || isdir s (dirname (join dst (shutil_basename src)))));
      [discriminate|]. now intros [= <-].
  - rewrite Hs.
    destruct (negb (is_empty (dirname dst) || isdir s (dirname dst)));
      [discriminate|]. now intros [= <-].
Qed.

(** After an invocation that returned, [filepath] names no regular file,
    whatever it named before. *)
Lemma invoke_source_gone (st st' : FileState) (w w' : World) :
  app_invoke st w = (Ok tt, st', w') -> fs w' (filepath st) = None.
Proof.
  intros H.
  apply invoke_returns in H as (st1 & w1 & st2 & H1 & H2 & ->).
  apply classify_returns in H1 as (v & Hv & -> & Hfs).
  apply move_returns in H2 as (s1 & s2 & s3 & M1 & M2 & M3 & -> & ->).
  cbn [filepath category new_path logs fs] in *.
  apply shutil_move_source in M3; [exact M3|].
  rewrite destination_weight by exact Hv. lia.
Qed.

(** The store an invocation that returns on a regular file leaves: the
    directories it made, the source entry removed, the content written
    where [shutil.move] puts it. *)
Lemma invoke_moves (st st' : FileState) (w w' : World) (c : list N) :
  app_invoke st w = (Ok tt, st', w') ->
  fs w (filepath st) = Some (File c) ->
  let landing :=
    if isdir (fs w) (new_path st')
    then join (new_path st') (shutil_basename (filepath st))
    else new_path st' in
  exists s2,
    grows (fun _ => True) (fs w) s2
    /\ fs w' = fs_set landing (Some (File c)) (fs_set (filepath st) None s2).
Proof.
  intros H Hsrc.
  apply invoke_returns in H as (st1 & w1 & st2 & H1 & H2 & ->).
  apply classify_returns in H1 as (v & Hv & -> & Hfs).
  apply move_returns in H2 as (s1 & s2 & s3 & M1 & M2 & M3 & -> & ->).
  cbn [filepath category new_path logs fs] in *.
  set (p := filepath st) in *. fold (destination p v) in *.
  apply os_makedirs_grows in M1, M2.
  destruct (destination_longer p v Hv) as [L1 L2].
  assert (G : grows (fun _ => True) (fs w) s2).
  { rewrite <- Hfs.
    eapply grows_compose; eapply grows_directories; eauto. }
  assert (Hsrc2 : s2 p = Some (File c)) by (eapply grows_keeps; eauto).
  assert (Hdst2 : s2 (destination p v) = fs w (destination p v)).
  { rewrite (grows_beyond _ _ _ _ M2 L2), (grows_beyond _ _ _ _ M1 L1).
    now rewrite Hfs. }
  assert (Hdir : isdir s2 (destination p v) = isdir (fs w) (destination p v)).
  { unfold isdir. now rewrite Hdst2. }
  assert (Hne : p <> destination p v)
    by (intros E; symmetry in E; revert E; now apply destination_fresh).
  exists s2. split; [exact G|].
  rewrite (shutil_move_file_lands _ _ _ _ _ Hsrc2 Hne M3).
  now rewrite Hdir.
Qed.

(** X6.  An invocation that returns on a regular file never loses it: the
    file is gone from [filepath] and its content is at [new_path], or, when
    [new_path] named a directory, inside that directory under the file's
    base name.  Every other entry that existed is still there, unchanged,
    and what appears besides is directories. *)
Theorem invoke_keeps_content (st st' : FileState) (w w' : World) (c : list N) :
  app_invoke st w = (Ok tt, st', w') ->
  fs w (filepath st) = Some (File c) ->
  let landing :=
    if isdir (fs w) (new_path st')
    then join (new_path st') (shutil_basename (filepath st))
    else new_path st' in
  fs w' (filepath st) = None
  /\ fs w' landing = Some (File c)
  /\ (forall q n, q <> filepath st -> q <> landing ->
                  fs w q = Some n -> fs w' q = Some n)
  /\ (forall q, q <> landing -> fs w q = None ->
                fs w' q = None \/ fs w' q = Some Dir).
Proof.
  intros H Hsrc.
  pose proof (invoke_source_gone _ _ _ _ H) as Hgone.
  destruct (invoke_moves _ _ _ _ c H Hsrc) as (s2 & G & E).
  cbv zeta in *. rewrite E.
  set (landing := if isdir (fs w) (new_path st')
                  then join (new_path st') (shutil_basename (filepath st))
                  else new_path st') in *.
  split; [now rewrite <- E|]. split; [apply fs_set_same|]. split.
  - intros q n Hq1 Hq2 Hq. rewrite !fs_set_other by assumption.
    eapply grows_keeps; eauto.
  - intros q Hq1 Hq. rewrite fs_set_other by assumption.
    unfold fs_set. destruct (ueqb q (filepath st)); [now left|].
    destruct (G q) as [E'|(_ & E' & _)]; [left; congruence|now right].
Qed.

(** ** Splitting what was joined *)

Lemma rfind_absent (c : N) (x : ustring) : ~ In c x -> rfind c x = (-1)%Z.
Proof.
  induction x as [|y x IH]; simpl; intros H; [reflexivity|].
  rewrite IH by tauto. simpl.
  destruct (N.eqb y c) eqn:E; [|reflexivity].
  apply N.eqb_eq in E. subst. exfalso. auto.
Qed.

Lemma rfind_last_sep (c : N) (a x : ustring) :
  ~ In c x -> rfind c (a ++ c :: x) = Z.of_nat (List.length a).
Proof.
  intros H. induction a as [|y a IH].
  - change (rfind c ([] ++ c :: x))
      with (if (0 <=? rfind c x)%Z then (rfind c x + 1)%Z
            else if N.eqb c c then 0%Z else (-1)%Z).
    rewrite (rfind_absent c x H), N.eqb_refl. reflexivity.
  - change (rfind c ((y :: a) ++ c :: x))
      with (if (0 <=? rfind c (a ++ c :: x))%Z then (rfind c (a ++ c :: x) + 1)%Z
            else if N.eqb y c then 0%Z else (-1)%Z).
    rewrite IH. cbn [List.length]. rewrite Nat2Z.inj_succ.
    destruct (0 <=? Z.of_nat (List.length a))%Z eqn:E; [lia|].
    apply Z.leb_gt in E. lia.
Qed.

Lemma slices_at_sep (c : N) (a x : ustring) :
  slice_to (Z.of_nat (List.length a) + 1) (a ++ c :: x) = a ++ [c]
  /\ slice_from (Z.of_nat (List.length a) + 1) (a ++ c :: x) = x.
Proof.
  unfold slice_to, slice_from.
  replace (Z.to_nat (Z.of_nat (List.length a) + 1))
    with (List.length (a ++ [c])) by (rewrite length_app; simpl; lia).
  change (c :: x) with ([c] ++ x). rewrite app_assoc. split.
  - rewrite firstn_app, Nat.sub_diag, firstn_all. simpl. apply app_nil_r.
  - rewrite skipn_app, Nat.sub_diag, skipn_all. reflexivity.
Qed.

Lemma rstrip_sep_end (a : ustring) :
  rstrip_by is_sep (a ++ [sep]) = rstrip_by is_sep a.
Proof. apply rstrip_by_drops. now constructor. Qed.

Lemma rstrip_no_sep_end (a : ustring) :
  endswith [sep] a = false -> rstrip_by is_sep a = a.
Proof.
  intros H. destruct a as [|y a]; [reflexivity|].
  assert (Hne : y :: a <> []) by discriminate.
  destruct (exists_last Hne) as (b & c & E). rewrite E in *.
  apply rstrip_by_stops.
  unfold endswith in H. rewrite rev_app_distr in H.
  change (startswith (rev [sep]) (rev [c] ++ rev b)) with (N.eqb sep c && true) in H.
  rewrite andb_true_r in H. unfold is_sep. now rewrite N.eqb_sym.
Qed.

Lemma all_seps_app (a b : ustring) :
  all_seps (a ++ b) = all_seps a && all_seps b.
Proof. unfold all_seps. apply forallb_app. Qed.

Lemma all_seps_end (d : ustring) :
  d <> [] -> all_seps d = true -> exists d', d = d' ++ [sep].
Proof.
  intros Hne H. destruct (exists_last Hne) as (d' & c & ->).
  rewrite all_seps_app in H. apply andb_true_iff in H as [_ H].
  simpl in H. rewrite andb_true_r in H. unfold is_sep in H.
  apply N.eqb_eq in H. subst. now exists d'.
Qed.

Lemma endswith_sep_end (a : ustring) : endswith [sep] (a ++ [sep]) = true.
Proof.
  unfold endswith. rewrite rev_app_distr. reflexivity.
Qed.

(** [posixpath.split] undoes [os.path.join] of a tidy directory and a
    name without separator. *)
Lemma path_split_join (d x : ustring) :
  tidy d -> ~ In sep x -> path_split (join d x) = (d, x).
Proof.
  intros Ht Hx. pose proof (no_sep_no_lead _ Hx) as Hlead.
  destruct d as [|y d0] eqn:Ed.
  - unfold join. rewrite Hlead. cbn [is_empty orb app].
    unfold path_split. rewrite (rfind_absent _ _ Hx). reflexivity.
  - rewrite <- Ed in *. assert (Hne : d <> []) by (subst; discriminate).
    clear Ed. destruct (all_seps d) eqn:Ea.
    + destruct (all_seps_end d Hne Ea) as [d' E].
      assert (Ej : join d x = d' ++ sep :: x).
      { unfold join. rewrite Hlead, E, endswith_sep_end, orb_true_r.
        now rewrite <- app_assoc. }
      rewrite Ej. unfold path_split. rewrite (rfind_last_sep _ _ _ Hx).
      destruct (slices_at_sep sep d' x) as [-> ->].
      rewrite <- E, Ea, andb_false_r. reflexivity.
    + destruct Ht as [Ht|Ht]; [congruence|].
      assert (Ej : join d x = d ++ sep :: x) by now apply join_adds_sep.
      rewrite Ej. unfold path_split. rewrite (rfind_last_sep _ _ _ Hx).
      destruct (slices_at_sep sep d x) as [-> ->].
      rewrite all_seps_app, Ea. cbn [andb negb].
      assert (Hem : is_empty (d ++ [sep]) = false) by (destruct d; reflexivity).
      rewrite Hem. cbn [negb andb].
      now rewrite rstrip_sep_end, rstrip_no_sep_end.
Qed.

Lemma dirname_join (d x : ustring) :
  tidy d -> ~ In sep x -> dirname (join d x) = d.
Proof.
  intros Ht Hx. change (dirname (join d x)) with (fst (path_split (join d x))).
  now rewrite path_split_join.
Qed.

Lemma basename_join (d x : ustring) :
  tidy d -> ~ In sep x -> basename (join d x) = x.
Proof.
  intros Ht Hx. change (basename (join d x)) with (snd (path_split (join d x))).
  now rewrite path_split_join.
Qed.

Lemma dirname_tidy (p : ustring) : tidy (dirname p).
Proof.
  unfold tidy. destruct (all_seps (dirname p)) eqn:E; [now left|].
  right. now apply dirname_no_trailing_sep.
Qed.

Lemma join_token_tidy (d v : ustring) : is_token v = true -> tidy (join d v).
Proof.
  intros Hv. right.
  destruct (join_shape d v) as [-> | ->];
    [apply no_sep_no_lead, token_no_sep, Hv| |].
  - now apply endswith_token.
  - rewrite app_assoc. now apply endswith_token.
Qed.

Lemma organized_token : is_token (u "organized") = true.
Proof. vm_compute. reflexivity. Qed.

(** X8.  The destination keeps the file's base name and lies exactly two
    directories below the folder of the source: its parent is named by the
    category, the parent of that is named "organized", and the parent of
    that is the folder of the source.  This holds for every path, with or
    without a directory part. *)
Theorem new_path_layout (st st' : FileState) (w w' : World) :
  app_invoke st w = (Ok tt, st', w') ->
  let parent := dirname (new_path st') in
  let root := dirname parent in
  basename (new_path st') = basename (filepath st)
  /\ basename parent = category st'
  /\ basename root = u "organized"
  /\ dirname root = dirname (filepath st).
Proof.
  intros H.
  apply invoke_returns in H as (st1 & w1 & st2 & H1 & H2 & ->).
  apply classify_returns in H1 as (v & Hv & -> & _).
  apply move_returns in H2 as (s1 & s2 & s3 & _ & _ & _ & -> & _).
  cbn [filepath category new_path logs]. unfold destination.
  assert (Td : tidy (dirname (filepath st))) by apply dirname_tidy.
  assert (Tb : tidy (join (dirname (filepath st)) (u "organized")))
    by apply join_token_tidy, organized_token.
  assert (Tt : tidy (join (join (dirname (filepath st)) (u "organized")) v))
    by now apply join_token_tidy.
  assert (Nb : ~ In sep (basename (filepath st))) by apply basename_no_sep.
  assert (Nv : ~ In sep v) by now apply token_no_sep.
  assert (No : ~ In sep (u "organized")) by apply token_no_sep, organized_token.
  cbv zeta.
  rewrite (dirname_join _ _ Tt Nb), (basename_join _ _ Tt Nb).
  rewrite (dirname_join _ _ Tb Nv), (basename_join _ _ Tb Nv).
  rewrite (dirname_join _ _ Td No), (basename_join _ _ Td No).
  auto.
Qed.

(** ** When an invocation goes through *)

Lemma makedirs_rec_direct (fuel : nat) (name h t : ustring) (s : store) :
  path_split name = (h, t) -> is_empty t = false ->
  is_empty h = true \/ path_exists s h = true ->
  makedirs_rec fuel name s = mkdir_exist_ok name s.
Proof.
  intros Ep Et Hh.
  assert (C : negb (is_empty h) && negb (is_empty t) && negb (path_exists s h) = false).
  { destruct Hh as [-> | ->]; [reflexivity|].
    now rewrite andb_false_r. }
  destruct fuel; cbn [makedirs_rec]; rewrite Ep, Et, C; reflexivity.
Qed.

Lemma join_nonempty (d x : ustring) : x <> [] -> join d x <> [].
Proof.
  intros Hx. unfold join. destruct (startswith [sep] x); [exact Hx|].
  destruct (is_empty d || endswith [sep] d); intros E;
    apply app_eq_nil in E as [_ E]; [contradiction|discriminate].
Qed.

(** [os.makedirs] of a name directly inside a directory that exists: it
    returns, the name is a directory afterwards, and nothing else has
    changed. *)
Lemma makedirs_child (d x : ustring) (s : store) :
  tidy d -> ~ In sep x -> x <> [] ->
  d = [] \/ isdir s d = true ->
  isfile s (join d x) = false ->
  exists s',
    os_makedirs (join d x) s = (Ok tt, s')
    /\ s' (join d x) = Some Dir
    /\ forall q, q <> join d x -> s' q = s q.
Proof.
  intros Ht Hx Hne Hd Hf.
  pose proof (path_split_join d x Ht Hx) as Ep.
  assert (Hx' : is_empty x = false) by (destruct x; [contradiction|reflexivity]).
  assert (Hn : is_empty (join d x) = false).
  { pose proof (join_nonempty d x Hne). destruct (join d x); [contradiction|reflexivity]. }
  unfold os_makedirs. rewrite (makedirs_rec_direct _ _ d x s Ep Hx').
  2:{ destruct Hd as [-> | Hd]; [now left|right].
      unfold isdir in Hd. unfold path_exists. now destruct (s d). }
  unfold mkdir_exist_ok, os_mkdir. rewrite Hn.
  change (dirname (join d x)) with (fst (path_split (join d x))).
  rewrite Ep. cbn [fst].
  unfold isfile in Hf. unfold path_exists, isdir.
  destruct (s (join d x)) as [[c|]|] eqn:E.
  - discriminate.
  - rewrite E. exists s. auto.
  - assert (Hp : is_empty d || match s d with Some Dir => true | _ => false end = true).
    { destruct Hd as [-> | Hd]; [reflexivity|].
      unfold isdir in Hd. rewrite Hd. apply orb_true_r. }
    rewrite Hp. eexists. split; [reflexivity|]. split.
    + apply fs_set_same.
    + intros q Hq. now apply fs_set_other.
Qed.

(** The directories [move_file] makes and the destination lie one below
    the other. *)
Lemma destination_chain (p v : ustring) :
  is_token v = true ->
  let base := join (dirname p) (u "organized") in
  let target := join base v in
  under base target = true /\ under target (destination p v) = true.
Proof.
  intros Hv base target. split.
  - assert (Tb : tidy base) by apply join_token_tidy, organized_token.
    assert (Hb : base <> []) by (apply join_nonempty; discriminate).
    assert (Et : target = base ++ [sep] ++ v).
    { apply join_adds_sep.
      - apply no_sep_no_lead, token_no_sep, Hv.
      - exact Hb.
      - destruct Tb as [Tb|Tb]; [|exact Tb].
        exfalso. unfold base in Tb.
        destruct (join_shape (dirname p) (u "organized")) as [E|E];
          [reflexivity| |]; rewrite E, !all_seps_app in Tb;
          apply andb_true_iff in Tb as [_ Tb];
          try (apply andb_true_iff in Tb as [_ Tb]); discriminate. }
    unfold under. rewrite Et, app_assoc. apply startswith_app.
  - destruct (target_shape (dirname p) v Hv) as (_ & Hne & He).
    fold base target in Hne, He.
    assert (Ed : destination p v = target ++ [sep] ++ basename p).
    { unfold destination. fold base target.
      apply join_adds_sep; auto. apply no_sep_no_lead, basename_no_sep. }
    unfold under. rewrite Ed, app_assoc. apply startswith_app.
Qed.

(** The store an invocation leaves when nothing stands in its way, entry
    by entry. *)
Lemma invoke_store (st st1 : FileState) (w w1 : World) (c : list N) :
  classify_file st w = (Ok tt, st1, w1) ->
  let d := dirname (filepath st) in
  let base := join d (u "organized") in
  let target := join base (category st1) in
  let dst := join target (basename (filepath st)) in
  fs w (filepath st) = Some (File c) ->
  d = [] \/ isdir (fs w) d = true ->
  isfile (fs w) base = false ->
  isfile (fs w) target = false ->
  isdir (fs w) dst = false ->
  exists st' w',
    app_invoke st w = (Ok tt, st', w')
    /\ new_path st' = dst
    /\ fs w' (filepath st) = None
    /\ fs w' dst = Some (File c)
    /\ fs w' target = Some Dir
    /\ fs w' base = Some Dir
    /\ (forall q, q <> dst -> q <> filepath st -> q <> target -> q <> base ->
                  fs w' q = fs w q).
Proof.
  intros H1.
  pose proof (classify_returns _ _ _ _ H1) as (v & Hv & E1 & Hfs).
  assert (Ev : category st1 = v) by now rewrite E1.
  assert (Ef : filepath st1 = filepath st) by now rewrite E1.
  cbv zeta. rewrite Ev.
  set (d := dirname (filepath st)).
  set (base := join d (u "organized")).
  set (target := join base v).
  set (dst := join target (basename (filepath st))).
  intros Hsrc Hd Hb Ht Hdst.
  destruct (destination_chain (filepath st) v Hv) as [Ubt Utd].
  fold d base target in Ubt, Utd.
  change (destination (filepath st) v) with dst in Utd.
  assert (Ubd : under base dst = true).
  { eapply under_prefix; [exact Ubt|]. unfold under in Utd.
    eapply startswith_trans; [|exact Utd]. apply startswith_app. }
  pose proof (under_differs _ _ Ubt) as Nbt.
  pose proof (under_differs _ _ Utd) as Ntd.
  pose proof (under_differs _ _ Ubd) as Nbd.
  assert (Nfd : filepath st <> dst).
  { intros E. symmetry in E. revert E. now apply destination_fresh. }
  assert (Nfb : filepath st <> base).
  { intros E. rewrite <- E in Hb. unfold isfile in Hb. now rewrite Hsrc in Hb. }
  assert (Nft : filepath st <> target).
  { intros E. rewrite <- E in Ht. unfold isfile in Ht. now rewrite Hsrc in Ht. }
  (* the two directories *)
  destruct (makedirs_child d (u "organized") (fs w)) as (s1 & M1 & D1 & F1);
    [apply dirname_tidy|apply token_no_sep, organized_token|discriminate
    |exact Hd|exact Hb|].
  fold base in M1, D1, F1.
  destruct (makedirs_child base v s1) as (s2 & M2 & D2 & F2).
  { apply join_token_tidy, organized_token. }
  { now apply token_no_sep. }
  { apply is_token_spec in Hv. tauto. }
  { right. unfold isdir. now rewrite D1. }
  { fold target. unfold isfile. rewrite F1 by (intros E; now apply Nbt).
    exact Ht. }
  fold target in M2, D2, F2.
  (* the move *)
  assert (S2src : s2 (filepath st) = Some (File c)).
  { rewrite F2, F1 by assumption. exact Hsrc. }
  assert (S2dst : isdir s2 dst = false).
  { unfold isdir. rewrite F2, F1 by (intros E; symmetry in E; contradiction).
    exact Hdst. }
  assert (M3 : shutil_move (filepath st) dst s2
               = (Ok tt, fs_set dst (Some (File c)) (fs_set (filepath st) None s2))).
  { unfold shutil_move, rename_entry. rewrite S2dst, S2src.
    unfold dst at 1 2. rewrite dirname_join;
      [|now apply join_token_tidy|apply basename_no_sep].
    fold target. unfold isdir. rewrite D2, orb_true_r. reflexivity. }
  assert (Hm : move_file st1 w1 =
               (Ok tt,
                mkState (filepath st) v dst (logs st1 ++ [u "Moved file to " ++ dst]),
                mkWorld (fs_set dst (Some (File c)) (fs_set (filepath st) None s2))
                  (llm_reply w1) (llm_calls w1))).
  { unfold move_file, bind, get_state, on_fs. rewrite Ef, Ev, Hfs.
    fold d base target dst. rewrite M1. cbn [fs llm_reply llm_calls].
    rewrite M2. cbn [fs llm_reply llm_calls]. rewrite M3.
    unfold set_new_path, append_log. cbn [filepath category new_path logs].
    rewrite Ef, Ev. reflexivity. }
  do 2 eexists. split.
  - unfold app_invoke, bind. rewrite H1, Hm. reflexivity.
  - cbn [new_path fs llm_reply].
    split; [reflexivity|]. split; [|split; [|split; [|split]]].
    + rewrite fs_set_other by exact Nfd. apply fs_set_same.
    + apply fs_set_same.
    + rewrite !fs_set_other; [exact D2| |];
        intros E; first [contradiction|symmetry in E; contradiction].
    + rewrite !fs_set_other; [rewrite F2; [exact D1|exact Nbt]| |];
        intros E; first [contradiction|symmetry in E; contradiction].
    + intros q Q1 Q2 Q3 Q4. rewrite !fs_set_other by assumption.
      rewrite F2, F1 by assumption. reflexivity.
Qed.

(** X7.  An invocation goes through whenever nothing stands in its way:
    if classify returns, [filepath] names a regular file whose folder
    exists (or is the current directory), neither "organized" nor the
    category folder is a regular file, and the destination is not a
    directory, then the invocation returns, the file is at the destination
    and no longer at [filepath], and the category folder exists.  A
    regular file already at the destination is replaced. *)
Theorem invoke_succeeds (st st1 : FileState) (w w1 : World) (c : list N) :
  classify_file st w = (Ok tt, st1, w1) ->
  let d := dirname (filepath st) in
  let base := join d (u "organized") in
  let target := join base (category st1) in
  let dst := join target (basename (filepath st)) in
  fs w (filepath st) = Some (File c) ->
  d = [] \/ isdir (fs w) d = true ->
  isfile (fs w) base = false ->
  isfile (fs w) target = false ->
  isdir (fs w) dst = false ->
  exists st' w',
    app_invoke st w = (Ok tt, st', w')
    /\ new_path st' = dst
    /\ fs w' (filepath st) = None
    /\ fs w' dst = Some (File c)
    /\ isdir (fs w') target = true.
Proof.
  intros H1. cbv zeta. intros Hsrc Hd Hb Ht Hdst.
  destruct (invoke_store _ _ _ _ c H1 Hsrc Hd Hb Ht Hdst)
    as (st' & w' & Hi & Hn & Hg & Hl & Hdir & _).
  exists st', w'. repeat split; try assumption.
  unfold isdir. now rewrite Hdir.
Qed.

(** ** The handler of the start button *)

(** The summary of a spelling that names no regular file is the line of
    the [except] branch, and nothing is sent to the service. *)
Lemma summarize_unreadable (decode : list N -> ustring) (enable : bool)
    (file full_path : ustring) (w : World) :
  isfile (fs w) full_path = false ->
  summarize decode enable file full_path w
  = (if enable then [unreadable file] else [], w).
Proof.
  intros H. unfold summarize, isfile in *. destruct enable; [|reflexivity].
  destruct (fs w full_path) as [[c|]|]; [discriminate|reflexivity|reflexivity].
Qed.

(** What the loop reads off an invocation that returned. *)
Lemma invoke_for_loop (p : ustring) (result : FileState) (w w1 : World) :
  app_invoke (fresh_record p) w = (Ok tt, result, w1) ->
  logs result = entries_of (basename p) (category result) (new_path result)
  /\ fs w1 p = None
  /\ llm_calls w1 = llm_calls w ++ prompts_for (basename p).
Proof.
  intros H. split; [|split].
  - apply invoke_returns in H as (st1 & w0 & st2 & H1 & H2 & ->).
    pose proof (classify_appends _ _ _ _ H1) as L1.
    pose proof (move_appends _ _ _ _ H2) as L2.
    apply move_world in H2 as (_ & _ & _ & Ec).
    cbn [logs category new_path]. rewrite L2, L1, Ec. reflexivity.
  - exact (invoke_source_gone _ _ _ _ H).
  - apply invoke_returns in H as (st1 & w0 & st2 & H1 & H2 & _).
    apply classify_world in H1 as (_ & _ & _ & _ & L1).
    apply move_world in H2 as (_ & L2 & _).
    rewrite L2, L1. reflexivity.
Qed.

(** The step of the loop for a file whose invocation returns. *)
Lemma run_files_step (decode : list N -> ustring) (enable : bool)
    (folder file : ustring) (rest report summaries : list ustring)
    (w w1 : World) (result : FileState) :
  app_invoke (fresh_record (join folder file)) w = (Ok tt, result, w1) ->
  run_files decode enable folder (file :: rest) report summaries w
  = run_files decode enable folder rest
      (report ++ entries_of (basename (join folder file)) (category result)
                   (new_path result))
      (summaries ++ (if enable then [unreadable file] else []))
      w1.
Proof.
  intros H. cbn [run_files]. rewrite H.
  destruct (invoke_for_loop _ _ _ _ H) as (Hl & Hg & _).
  rewrite summarize_unreadable by (unfold isfile; now rewrite Hg).
  now rewrite Hl.
Qed.

Lemma run_files_stops (decode : list N -> ustring) (enable : bool)
    (folder file : ustring) (rest report summaries : list ustring)
    (w w1 : World) (st1 : FileState) (e : exn) :
  app_invoke (fresh_record (join folder file)) w = (Raise e, st1, w1) ->
  run_files decode enable folder (file :: rest) report summaries w
  = TabRaised e w1.
Proof. intros H. cbn [run_files]. now rewrite H. Qed.

(** What a loop that runs to its end has accumulated. *)
Lemma run_files_done (decode : list N -> ustring) (enable : bool) (folder : ustring) :
  forall files report summaries w report' summaries' w',
    run_files decode enable folder files report summaries w
    = TabDone report' summaries' w' ->
    (exists placements : list (ustring * ustring),
        List.length placements = List.length files
        /\ report' =
             report ++
             List.concat (map (fun fp => entries_of (basename (join folder (fst fp)))
                                      (fst (snd fp)) (snd (snd fp)))
                       (combine files placements)))
    /\ summaries' = summaries ++ (if enable then map unreadable files else [])
    /\ llm_calls w' =
         llm_calls w ++ flat_map (fun f => prompts_for (basename (join folder f))) files.
Proof.
  induction files as [|file rest IH]; intros report summaries w report' summaries' w' H.
  - cbn [run_files] in H. inversion H; subst. split; [|split].
    + exists []. split; [reflexivity|]. simpl. now rewrite app_nil_r.
    + destruct enable; simpl; now rewrite app_nil_r.
    + simpl. now rewrite app_nil_r.
  - destruct (app_invoke (fresh_record (join folder file)) w)
      as [[[[]|e] result] w1] eqn:Hi.
    2:{ rewrite (run_files_stops _ _ _ _ _ _ _ _ _ _ _ Hi) in H. discriminate. }
    rewrite (run_files_step _ _ _ _ _ _ _ _ _ _ Hi) in H.
    apply IH in H as ((placements & Hl & Hr) & Hs & Hc).
    destruct (invoke_for_loop _ _ _ _ Hi) as (_ & _ & Hp).
    split; [|split].
    + exists ((category result, new_path result) :: placements).
      split; [simpl; now rewrite Hl|].
      rewrite Hr. cbn [combine map List.concat fst snd]. now rewrite <- !app_assoc.
    + rewrite Hs. destruct enable; cbn [map]; now rewrite <- app_assoc.
    + rewrite Hc, Hp. cbn [flat_map]. now rewrite <- app_assoc.
Qed.

(** X9.  When the handler runs to its end, the activity log is made of
    the three entries of each regular file of the listing, in listing
    order: three times as many entries as files. *)
Theorem batch_report_shape (decode : list N -> ustring) (enable : bool)
    (folder : ustring) (listing report summaries : list ustring) (w w' : World) :
  start_organizing decode enable folder listing w = TabDone report summaries w' ->
  let files := filter (fun f => isfile (fs w) (join folder f)) listing in
  (exists placements : list (ustring * ustring),
      List.length placements = List.length files
      /\ report =
           List.concat (map (fun fp => entries_of (basename (join folder (fst fp)))
                                    (fst (snd fp)) (snd (snd fp)))
                     (combine files placements)))
  /\ List.length report = (3 * List.length files)%nat.
Proof.
  unfold start_organizing.
  destruct (is_empty folder || negb (path_exists (fs w) folder)); [discriminate|].
  destruct (negb (isdir (fs w) folder)); [discriminate|].
  intros H. cbv zeta in *.
  set (files := filter (fun f => isfile (fs w) (join folder f)) listing) in *.
  apply run_files_done in H as ((placements & Hl & Hr) & _ & _).
  simpl in Hr. split; [now exists placements|].
  rewrite Hr. clear Hr. revert placements Hl.
  induction files as [|f files IH]; intros [|pl placements] Hl;
    try discriminate; [reflexivity|].
  cbn [combine map List.concat]. rewrite length_app, IH by (simpl in Hl; lia).
  simpl. lia.
Qed.

(** X10.  With summaries enabled, a handler that runs to its end has
    summarized nothing: each file was moved before it is opened, so every
    line says the content could not be read, and the only prompts sent are
    the classification prompts of the files whose extension is not in the
    table.  With summaries disabled there is no line at all. *)
Theorem batch_summaries_unreadable (decode : list N -> ustring) (enable : bool)
    (folder : ustring) (listing report summaries : list ustring) (w w' : World) :
  start_organizing decode enable folder listing w = TabDone report summaries w' ->
  let files := filter (fun f => isfile (fs w) (join folder f)) listing in
  summaries = (if enable then map unreadable files else [])
  /\ llm_calls w' =
       llm_calls w ++ flat_map (fun f => prompts_for (basename (join folder f))) files.
Proof.
  unfold start_organizing.
  destruct (is_empty folder || negb (path_exists (fs w) folder)); [discriminate|].
  destruct (negb (isdir (fs w) folder)); [discriminate|].
  intros H. cbv zeta in *.
  set (files := filter (fun f => isfile (fs w) (join folder f)) listing) in *.
  apply run_files_done in H as (_ & Hs & Hc). auto.
Qed.

(** ** What is left in the folder *)

Lemma grows_isfile (P : ustring -> Prop) (s s' : store) (q : ustring) :
  grows P s s' -> isfile s' q = isfile s q.
Proof.
  intros G. unfold isfile. destruct (G q) as [E|(E1 & E2 & _)].
  - now rewrite E.
  - now rewrite E1, E2.
Qed.

Lemma startswith_refl (a : ustring) : startswith a a = true.
Proof. rewrite <- (app_nil_r a) at 2. apply startswith_app. Qed.

(** A regular file that is there after a rename was there before, or is at
    the destination or below it. *)
Lemma rename_entry_new_files (src dst q : ustring) (s s' : store) :
  rename_entry src dst s = (Ok tt, s') ->
  isfile s' q = true -> isfile s q = true \/ startswith dst q = true.
Proof.
  unfold rename_entry. destruct (s src) as [[c|]|]; [| |discriminate].
  - destruct (negb (is_empty (dirname dst) || isdir s (dirname dst)));
      [discriminate|].
    intros [= <-]. unfold isfile, fs_set.
    destruct (ueqb q dst) eqn:E1.
    + apply ueqb_eq in E1; subst. intros _. right. apply startswith_refl.
    + destruct (ueqb q src); [discriminate|]. now left.
  - destruct (negb (is_empty (dirname dst) || isdir s (dirname dst)));
      [discriminate|].
    destruct (under src dst); [discriminate|].
    destruct (path_exists s dst); [discriminate|].
    intros [= <-]. unfold isfile, move_tree.
    destruct (ueqb q dst); [discriminate|].
    destruct (under dst q) eqn:U.
    + intros _. right. unfold under in U.
      eapply startswith_trans; [|exact U]. apply startswith_app.
    + destruct (ueqb q src || under src q); [discriminate|]. now left.
Qed.

Lemma shutil_move_new_files (src dst q : ustring) (s s' : store) :
  shutil_move src dst s = (Ok tt, s') ->
  isfile s' q = true -> isfile s q = true \/ startswith dst q = true.
Proof.
  unfold shutil_move. destruct (isdir s dst); [|apply rename_entry_new_files].
  destruct (ueqb src dst); [intros [= <-]; now left|].
  destruct (path_exists s (join dst (shutil_basename src))); [discriminate|].
  intros H Hq. destruct (rename_entry_new_files _ _ _ _ _ H Hq) as [Hs|Hs];
    [now left|right].
  eapply startswith_trans; [|exact Hs].
  destruct (join_shape dst (shutil_basename src)) as [-> | ->];
    [apply no_sep_no_lead, basename_no_sep| |]; apply startswith_app.
Qed.

Lemma endswith_sep_split (a : ustring) :
  endswith [sep] a = true -> exists b, a = b ++ [sep].
Proof.
  destruct a as [|y a]; [discriminate|].
  assert (Hne : y :: a <> []) by discriminate.
  destruct (exists_last Hne) as (b & c & ->).
  unfold endswith. rewrite rev_app_distr.
  change (startswith (rev [sep]) (rev [c] ++ rev b)) with (N.eqb sep c && true).
  rewrite andb_true_r. intros H. apply N.eqb_eq in H. subst. now exists b.
Qed.

(** A name of the listing joined to the folder: the folder, one separator,
    the name. *)
Lemma join_in_folder (folder f : ustring) :
  folder <> [] -> ~ In sep f ->
  exists a, join folder f = a ++ sep :: f /\ weight a = weight folder.
Proof.
  intros Hne Hf. pose proof (no_sep_no_lead _ Hf) as Hl.
  destruct (endswith [sep] folder) eqn:E.
  - destruct (endswith_sep_split _ E) as [b Eb]. exists b. split.
    + unfold join. rewrite Hl, E, orb_true_r, Eb, <- app_assoc. reflexivity.
    + rewrite Eb, weight_app. change (weight [sep]) with 0%nat. lia.
  - exists folder. split; [|reflexivity]. now apply join_adds_sep.
Qed.

Lemma source_in_folder (folder g : ustring) :
  folder <> [] -> ~ In sep g ->
  basename (join folder g) = g
  /\ weight (dirname (join folder g)) = weight folder.
Proof.
  intros Hne Hg. destruct (join_in_folder folder g Hne Hg) as (a & E & Hw).
  assert (Hb : basename (join folder g) = g).
  { unfold basename. rewrite E, (rfind_last_sep _ _ _ Hg).
    apply (slices_at_sep sep a g). }
  split; [exact Hb|].
  pose proof (weight_dirname_basename (join folder g)) as W.
  rewrite Hb in W. rewrite E in W at 2. rewrite weight_app in W.
  change (sep :: g) with ([sep] ++ g) in W. rewrite weight_app in W.
  change (weight [sep]) with 0%nat in W. lia.
Qed.

(** Two spellings cut at a separator, the first one at its last. *)
Lemma sep_prefix_weight (a b f r : ustring) :
  a ++ sep :: f = b ++ sep :: r -> ~ In sep f -> (weight b <= weight a)%nat.
Proof.
  intros E Hf. apply app_eq_app in E as [l [[-> E]|[-> E]]].
  - rewrite weight_app. lia.
  - destruct l as [|y l]; [rewrite app_nil_r; lia|].
    exfalso. apply Hf. inversion E; subst. apply in_or_app. right. now left.
Qed.

(** Nothing at the destination or below it is a name of the folder. *)
Lemma destination_not_in_folder (folder g f v : ustring) :
  folder <> [] -> ~ In sep g -> ~ In sep f -> is_token v = true ->
  startswith (destination (join folder g) v) (join folder f) = false.
Proof.
  intros Hne Hg Hf Hv.
  destruct (startswith (destination (join folder g) v) (join folder f)) eqn:S;
    [exfalso|reflexivity].
  destruct (destination_chain (join folder g) v Hv) as [_ U].
  cbv zeta in U. unfold under in U.
  set (target := join (join (dirname (join folder g)) (u "organized")) v) in *.
  pose proof (startswith_trans _ _ _ U S) as S'.
  apply startswith_split in S' as [r Er].
  destruct (join_in_folder folder f Hne Hf) as (a & Ea & Wa).
  rewrite Ea, <- app_assoc in Er.
  apply sep_prefix_weight in Er; [|exact Hf].
  destruct (source_in_folder folder g Hne Hg) as [_ Wd].
  unfold target in Er.
  rewrite weight_join in Er by (apply no_sep_no_lead, token_no_sep, Hv).
  rewrite weight_join in Er by reflexivity.
  change (weight (u "organized")) with 9%nat in Er. lia.
Qed.

(** An invocation that returns on a name of the folder leaves no new
    regular file directly in the folder, and the name itself is gone. *)
Lemma invoke_no_file_in_folder (folder g f : ustring) (st' : FileState) (w w' : World) :
  app_invoke (fresh_record (join folder g)) w = (Ok tt, st', w') ->
  folder <> [] -> ~ In sep g -> ~ In sep f ->
  isfile (fs w) (join folder f) = false ->
  isfile (fs w') (join folder f) = false.
Proof.
  intros H Hne Hg Hf Hq.
  apply invoke_returns in H as (st1 & w1 & st2 & H1 & H2 & ->).
  apply classify_returns in H1 as (v & Hv & -> & Hfs).
  apply move_returns in H2 as (s1 & s2 & s3 & M1 & M2 & M3 & -> & ->).
  cbn [filepath category new_path logs fs fresh_record] in *.
  apply os_makedirs_grows in M1, M2.
  destruct (isfile s3 (join folder f)) eqn:E; [exfalso|reflexivity].
  apply (shutil_move_new_files _ _ _ _ _ M3) in E as [E|E].
  - rewrite (grows_isfile _ _ _ _ M2), (grows_isfile _ _ _ _ M1), Hfs in E.
    congruence.
  - fold (destination (join folder g) v) in E.
    rewrite destination_not_in_folder in E by assumption. discriminate.
Qed.

Lemma summarize_store (decode : list N -> ustring) (enable : bool)
    (file full_path : ustring) (w : World) :
  fs (snd (summarize decode enable file full_path w)) = fs w.
Proof.
  unfold summarize, llm_call. destruct enable; [|reflexivity].
  destruct (fs w full_path) as [[c|]|]; try reflexivity.
  destruct (llm_reply w (llm_calls w) _); reflexivity.
Qed.

(** Through the loop, a name of the folder that is no regular file, or is
    still on the list, is no regular file at the end. *)
Lemma run_files_empties (decode : list N -> ustring) (enable : bool) (folder : ustring) :
  folder <> [] ->
  forall files report summaries w report' summaries' w',
    Forall (fun g => ~ In sep g) files ->
    run_files decode enable folder files report summaries w
    = TabDone report' summaries' w' ->
    forall f, ~ In sep f ->
      isfile (fs w) (join folder f) = false \/ In f files ->
      isfile (fs w') (join folder f) = false.
Proof.
  intros Hne. induction files as [|g rest IH];
    intros report summaries w report' summaries' w' Hall H f Hf Hcase.
  - cbn [run_files] in H. inversion H; subst.
    destruct Hcase as [Hc|[]]. exact Hc.
  - inversion Hall as [|? ? Hg Hrest]; subst.
    destruct (app_invoke (fresh_record (join folder g)) w)
      as [[[[]|e] result] w1] eqn:Hi.
    2:{ rewrite (run_files_stops _ _ _ _ _ _ _ _ _ _ _ Hi) in H. discriminate. }
    rewrite (run_files_step _ _ _ _ _ _ _ _ _ _ Hi) in H.
    apply (IH _ _ _ _ _ _ Hrest H f Hf).
    destruct Hcase as [Hc|[->|Hin]].
    + left. eapply invoke_no_file_in_folder; eauto.
    + left. unfold isfile.
      destruct (invoke_for_loop _ _ _ _ Hi) as (_ & Hgone & _). now rewrite Hgone.
    + now right.
Qed.

(** X11.  When the handler runs to its end over a listing of plain names,
    no name of the listing is a regular file of the folder any more: run
    again over the same listing, the handler would find nothing to do. *)
Theorem batch_empties_folder (decode : list N -> ustring) (enable : bool)
    (folder : ustring) (listing report summaries : list ustring) (w w' : World) :
  Forall (fun g => ~ In sep g) listing ->
  start_organizing decode enable folder listing w = TabDone report summaries w' ->
  (forall f, In f listing -> isfile (fs w') (join folder f) = false)
  /\ filter (fun f => isfile (fs w') (join folder f)) listing = [].
Proof.
  intros Hall H. unfold start_organizing in H.
  destruct (is_empty folder) eqn:Ee; [discriminate|].
  assert (Hne : folder <> []) by (intros ->; discriminate).
  destruct (negb (path_exists (fs w) folder)); [discriminate|].
  destruct (negb (isdir (fs w) folder)); [discriminate|].
  cbn [orb] in H. cbv zeta in H.
  set (files := filter (fun f => isfile (fs w) (join folder f)) listing) in *.
  assert (Hgone : forall f, In f listing -> isfile (fs w') (join folder f) = false).
  { intros f Hin. rewrite Forall_forall in Hall.
    eapply (run_files_empties decode enable folder Hne); [|exact H|now apply Hall|].
    - apply Forall_forall. intros g Hg. apply Hall.
      unfold files in Hg. apply filter_In in Hg. tauto.
    - destruct (isfile (fs w) (join folder f)) eqn:E; [right|now left].
      unfold files. apply filter_In. auto. }
  split; [exact Hgone|].
  clear - Hgone. induction listing as [|f listing IH]; [reflexivity|].
  cbn [filter]. rewrite Hgone by now left.
  apply IH. intros g Hg. apply Hgone. now right.
Qed.

(** ** A path without a directory part *)

Lemma bare_name_parts (p : ustring) :
  ~ In sep p -> dirname p = [] /\ basename p = p.
Proof.
  intros H. unfold dirname, basename. rewrite (rfind_absent _ _ H).
  split; reflexivity.
Qed.

(** X12.  A file given by its bare name, with no directory part, is put
    under "organized" in the current directory: [new_path] is
    organized/category/name, a relative path. *)
Theorem new_path_of_bare_name (st st' : FileState) (w w' : World) :
  app_invoke st w = (Ok tt, st', w') ->
  ~ In sep (filepath st) ->
  new_path st' = u "organized/" ++ category st' ++ u "/" ++ filepath st.
Proof.
  intros H Hp.
  apply invoke_returns in H as (st1 & w1 & st2 & H1 & H2 & ->).
  apply classify_returns in H1 as (v & Hv & -> & _).
  apply move_returns in H2 as (s1 & s2 & s3 & _ & _ & _ & -> & _).
  cbn [filepath category new_path logs].
  destruct (bare_name_parts _ Hp) as [Ed Eb].
  destruct (target_shape (dirname (filepath st)) v Hv) as (_ & Hne & He).
  unfold destination. rewrite (join_adds_sep _ (basename (filepath st)));
    [|apply no_sep_no_lead, basename_no_sep|exact Hne|exact He].
  rewrite Ed, Eb.
  change (join [] (u "organized")) with (u "organized").
  rewrite (join_adds_sep (u "organized") v);
    [|apply no_sep_no_lead, token_no_sep, Hv|discriminate|reflexivity].
  rewrite <- !app_assoc. reflexivity.
Qed.


(** ** A run that goes through *)

(** With a service that answers, classify returns. *)
Lemma classify_answers (st : FileState) (w : World) :
  (forall calls p, llm_reply w calls p <> None) ->
  exists st1 w1, classify_file st w = (Ok tt, st1, w1).
Proof.
  intros Hr.
  destruct (dict_get mapping (extension (basename (filepath st)))) as [v|] eqn:E.
  - do 2 eexists. exact (classify_hit st w v E).
  - destruct (llm_reply w (llm_calls w) (classify_prompt (basename (filepath st))))
      as [content|] eqn:R; [|now apply Hr in R].
    do 2 eexists. exact (classify_miss_reply st w content E R).
Qed.

(** An invocation leaves the service as it was. *)
Lemma invoke_service (st st' : FileState) (w w' : World) :
  app_invoke st w = (Ok tt, st', w') -> llm_reply w' = llm_reply w.
Proof.
  intros H. apply invoke_returns in H as (st1 & w1 & st2 & H1 & H2 & _).
  apply classify_world in H1 as (_ & _ & _ & L1 & _).
  apply move_world in H2 as (L2 & _). congruence.
Qed.

(** Entries of different names are different entries. *)
Lemma join_name_differs (d d' x y : ustring) :
  tidy d -> tidy d' -> ~ In sep x -> ~ In sep y -> x <> y ->
  join d x <> join d' y.
Proof.
  intros Td Td' Hx Hy Hxy E. apply Hxy.
  rewrite <- (basename_join d x Td Hx), <- (basename_join d' y Td' Hy).
  now rewrite E.
Qed.

Lemma folder_not_organized (folder : ustring) :
  folder <> join folder (u "organized").
Proof.
  intros E. apply (f_equal weight) in E.
  rewrite weight_join in E by reflexivity.
  change (weight (u "organized")) with 9%nat in E. lia.
Qed.

(** The invocation on a regular file of a folder in which "organized" is
    laid out by the loop, or absent: it returns, and the layout is kept. *)
Lemma invoke_in_folder (folder f : ustring) (w : World) (c : list N) :
  tidy folder -> ~ In sep f ->
  (forall calls p, llm_reply w calls p <> None) ->
  isdir (fs w) folder = true ->
  fs w (join folder f) = Some (File c) ->
  let base := join folder (u "organized") in
  isfile (fs w) base = false ->
  sorted_below base (fs w) ->
  exists st' w' v,
    app_invoke (fresh_record (join folder f)) w = (Ok tt, st', w')
    /\ is_token v = true
    /\ llm_reply w' = llm_reply w
    /\ fs w' (join (join base v) f) = Some (File c)
    /\ isdir (fs w') folder = true
    /\ isfile (fs w') base = false
    /\ sorted_below base (fs w')
    /\ (forall q c', fs w q = Some (File c') ->
                     q <> join folder f -> q <> join (join base v) f ->
                     fs w' q = Some (File c')).
Proof.
  intros Tf Hf Hr Hd Hsrc base Hb Hs.
  destruct (classify_answers (fresh_record (join folder f)) w Hr) as (st1 & w1 & H1).
  pose proof (classify_returns _ _ _ _ H1) as (v & Hv & E1 & _).
  assert (Ec : category st1 = v) by now rewrite E1.
  assert (Ed : dirname (join folder f) = folder) by now apply dirname_join.
  assert (Eb : basename (join folder f) = f) by now apply basename_join.
  pose proof (destination_chain (join folder f) v Hv) as Hch.
  unfold destination in Hch. cbv zeta in Hch. rewrite Ed, Eb in Hch.
  fold base in Hch. destruct Hch as [Ubt Utd].
  set (target := join base v) in *.
  set (dst := join target f) in *.
  assert (Ubd : under base dst = true).
  { eapply under_prefix; [exact Ubt|]. unfold under in Utd.
    eapply startswith_trans; [|exact Utd]. apply startswith_app. }
  assert (Tb : tidy base) by apply join_token_tidy, organized_token.
  assert (Tt : tidy target) by now apply join_token_tidy.
  assert (Db : dirname base = folder)
    by (apply dirname_join; [exact Tf|apply token_no_sep, organized_token]).
  assert (Dt : dirname target = base)
    by (apply dirname_join; [exact Tb|now apply token_no_sep]).
  assert (Dd : dirname dst = target) by now apply dirname_join.
  pose proof (folder_not_organized folder) as Nfb. fold base in Nfb.
  pose proof (under_differs _ _ Ubt) as Nbt.
  pose proof (under_differs _ _ Ubd) as Nbd.
  assert (Ht : isfile (fs w) target = false).
  { unfold isfile. destruct (Hs _ Ubt) as [E|[[E _]|[_ E]]].
    - now rewrite E.
    - now rewrite E.
    - rewrite Dt, Db in E. contradiction. }
  assert (Hdst : isdir (fs w) dst = false).
  { unfold isdir. destruct (Hs _ Ubd) as [E|[[_ E]|[[c' E] _]]].
    - now rewrite E.
    - rewrite Dd in E. symmetry in E. contradiction.
    - now rewrite E. }
  pose proof (invoke_store _ _ _ _ c H1) as IS. cbv zeta in IS.
  change (filepath (fresh_record (join folder f))) with (join folder f) in IS.
  rewrite Ed, Eb, Ec in IS. fold base target dst in IS.
  destruct (IS Hsrc (or_intror Hd) Hb Ht Hdst)
    as (st' & w' & Hi & _ & Hg & Hl & Hdt & Hdb & Hrest).
  exists st', w', v.
  split; [exact Hi|]. split; [exact Hv|].
  split; [exact (invoke_service _ _ _ _ Hi)|]. split; [exact Hl|].
  assert (K : forall q c', fs w q = Some (File c') ->
                q <> join folder f -> q <> dst -> fs w' q = Some (File c')).
  { intros q c' Hq Q1 Q2. rewrite Hrest; [exact Hq|exact Q2|exact Q1| |].
    - intros ->. unfold isfile in Ht. now rewrite Hq in Ht.
    - intros ->. unfold isfile in Hb. now rewrite Hq in Hb. }
  split; [|split; [|split; [|exact K]]].
  - unfold isdir in *.
    destruct (fs w folder) as [[|]|] eqn:Ef; try discriminate.
    destruct (list_eq_dec N.eq_dec folder target) as [E|N1]; [now rewrite E, Hdt|].
    destruct (list_eq_dec N.eq_dec folder base) as [E|N2]; [now rewrite E, Hdb|].
    rewrite Hrest, Ef; auto.
    + intros E. rewrite <- E, Ef in Hdst. discriminate.
    + intros E. rewrite E, Hsrc in Ef. discriminate.
  - unfold isfile. now rewrite Hdb.
  - intros q Hq.
    destruct (list_eq_dec N.eq_dec q dst) as [E|N1]; [subst q|].
    { right. right. split; [now exists c|]. now rewrite Dd, Dt. }
    destruct (list_eq_dec N.eq_dec q (join folder f)) as [E|N2]; [subst q; left; exact Hg|].
    destruct (list_eq_dec N.eq_dec q target) as [E|N3]; [subst q|].
    { right. left. split; [exact Hdt|exact Dt]. }
    assert (N4 : q <> base) by (intros ->; now apply (under_differs _ _ Hq)).
    rewrite Hrest by assumption. now apply Hs.
Qed.

(** The loop over regular files of different plain names, in such a
    folder: it runs to its end; every file of the list is then, with its
    content, in a category folder of "organized"; and a regular file that
    is neither one of the list nor at one of their destinations is as it
    was. *)
Lemma run_files_completes (decode : list N -> ustring) (enable : bool)
    (folder : ustring) :
  tidy folder ->
  let base := join folder (u "organized") in
  forall files report summaries w,
    NoDup files ->
    Forall (fun f => ~ In sep f) files ->
    Forall (fun f => isfile (fs w) (join folder f) = true) files ->
    (forall calls p, llm_reply w calls p <> None) ->
    isdir (fs w) folder = true ->
    isfile (fs w) base = false ->
    sorted_below base (fs w) ->
    exists report' summaries' w',
      run_files decode enable folder files report summaries w
      = TabDone report' summaries' w'
      /\ (forall q c, fs w q = Some (File c) ->
            (forall g, In g files ->
               q <> join folder g
               /\ forall v, is_token v = true -> q <> join (join base v) g) ->
            fs w' q = Some (File c))
      /\ (forall f c, In f files -> fs w (join folder f) = Some (File c) ->
            exists v, is_token v = true
                      /\ fs w' (join (join base v) f) = Some (File c)).
Proof.
  intros Tf base.
  assert (Tb : tidy base) by apply join_token_tidy, organized_token.
  induction files as [|f rest IH];
    intros report summaries w Hnd Hplain Hfiles Hr Hd Hb Hs.
  - exists report, summaries, w. split; [reflexivity|]. split.
    + intros q c Hq _. exact Hq.
    + intros f c [].
  - inversion Hnd as [|? ? Hnotin Hnd']; subst.
    inversion Hplain as [|? ? Hf Hplain']; subst.
    inversion Hfiles as [|? ? Hfile Hfiles']; subst.
    assert (exists c0, fs w (join folder f) = Some (File c0)) as [c0 Hsrc].
    { unfold isfile in Hfile.
      destruct (fs w (join folder f)) as [[c0|]|]; try discriminate.
      now exists c0. }
    destruct (invoke_in_folder folder f w c0 Tf Hf Hr Hd Hsrc Hb Hs)
      as (st' & w1 & v & Hi & Hv & Hr1 & Hl & Hd1 & Hb1 & Hs1 & K).
    fold base in Hl, Hb1, Hs1, K.
    assert (Tt : tidy (join base v)) by now apply join_token_tidy.
    assert (Hother : forall g, In g rest -> g <> f)
      by (intros g Hg ->; contradiction).
    assert (Hplain_in : forall g, In g rest -> ~ In sep g)
      by (now apply Forall_forall).
    assert (Hfiles1 : Forall (fun g => isfile (fs w1) (join folder g) = true) rest).
    { apply Forall_forall. intros g Hg.
      rewrite Forall_forall in Hfiles'. specialize (Hfiles' g Hg).
      unfold isfile in *.
      destruct (fs w (join folder g)) as [[c'|]|] eqn:Eg; try discriminate.
      rewrite (K _ c' Eg); [reflexivity| |];
        apply join_name_differs; auto. }
    assert (Hr1' : forall calls p, llm_reply w1 calls p <> None)
      by (intros calls p; rewrite Hr1; apply Hr).
    rewrite (run_files_step _ _ _ _ _ _ _ _ _ _ Hi).
    destruct (IH (report ++ entries_of (basename (join folder f)) (category st')
                              (new_path st'))
                 (summaries ++ (if enable then [unreadable f] else []))
                 w1 Hnd' Hplain' Hfiles1 Hr1' Hd1 Hb1 Hs1)
      as (report' & summaries' & w' & Hrun & P1 & P2).
    exists report', summaries', w'. split; [exact Hrun|]. split.
    + intros q c Hq Hout. apply P1.
      * destruct (Hout f (or_introl eq_refl)) as [Q1 Q2].
        apply K; auto.
      * intros g Hg. apply Hout. now right.
    + intros f' c [<-|Hin] Hq.
      * assert (c = c0) by congruence. subst c.
        exists v. split; [exact Hv|]. apply P1; [exact Hl|].
        intros g Hg. split.
        -- apply join_name_differs; auto. intros E. now apply (Hother g).
        -- intros v' Hv'. apply join_name_differs; auto.
           ++ now apply join_token_tidy.
           ++ intros E. now apply (Hother g).
      * apply (P2 f' c Hin). apply K; [exact Hq| |];
          apply join_name_differs; auto.
Qed.

(** X13.  On a folder that holds nothing named "organized", with a
    classification service that answers, the handler runs to its end
    whatever the listing of different plain names: no invocation raises.
    Every regular file of the listing is then, with its content, in a
    category folder of "organized", and a regular file that is not one of
    the listing is as it was. *)
Theorem batch_completes (decode : list N -> ustring) (enable : bool)
    (folder : ustring) (listing : list ustring) (w : World) :
  folder <> [] -> tidy folder -> isdir (fs w) folder = true ->
  NoDup listing -> Forall (fun g => ~ In sep g) listing ->
  (forall calls p, llm_reply w calls p <> None) ->
  let base := join folder (u "organized") in
  fs w base = None -> (forall q, under base q = true -> fs w q = None) ->
  exists report summaries w',
    start_organizing decode enable folder listing w = TabDone report summaries w'
    /\ (forall f c, In f listing -> fs w (join folder f) = Some (File c) ->
          exists v, is_token v = true
                    /\ fs w' (join (join base v) f) = Some (File c))
    /\ (forall q c, fs w q = Some (File c) ->
          (forall f, In f listing -> q <> join folder f) ->
          fs w' q = Some (File c)).
Proof.
  intros Hne Tf Hd Hnd Hplain Hr base Hb Hfresh.
  set (files := filter (fun f => isfile (fs w) (join folder f)) listing).
  assert (Hsub : forall f, In f files <-> In f listing
                                          /\ isfile (fs w) (join folder f) = true)
    by (intros f; unfold files; rewrite filter_In; reflexivity).
  destruct (run_files_completes decode enable folder Tf files [] [] w)
    as (report & summaries & w' & Hrun & P1 & P2).
  - now apply NoDup_filter.
  - apply Forall_forall. intros f Hin. apply Hsub in Hin as [Hin _].
    rewrite Forall_forall in Hplain. now apply Hplain.
  - apply Forall_forall. intros f Hin. now apply Hsub in Hin.
  - exact Hr.
  - exact Hd.
  - unfold isfile. fold base. now rewrite Hb.
  - intros q Hq. left. now apply Hfresh.
  - fold base in P1, P2. exists report, summaries, w'. split; [|split].
    + unfold start_organizing.
      destruct (is_empty folder) eqn:Ee;
        [destruct folder; [contradiction|discriminate]|].
      assert (Hex : path_exists (fs w) folder = true).
      { unfold path_exists, isdir in *. destruct (fs w folder); [reflexivity|discriminate]. }
      rewrite Hex, Hd. exact Hrun.
    + intros f c Hin Hq. apply P2; [|exact Hq].
      apply Hsub. split; [exact Hin|]. unfold isfile. now rewrite Hq.
    + intros q c Hq Hout. apply P1; [exact Hq|].
      intros g Hg. apply Hsub in Hg as [Hg _]. split; [now apply Hout|].
      intros v Hv E.
      assert (Hu : under base q = true).
      { rewrite Forall_forall in Hplain.
        assert (Eb : basename (join folder g) = g)
          by (apply basename_join; [exact Tf|now apply Hplain]).
        assert (Ed : dirname (join folder g) = folder)
          by (apply dirname_join; [exact Tf|now apply Hplain]).
        pose proof (destination_chain (join folder g) v Hv) as Hch.
        unfold destination in Hch. cbv zeta in Hch. rewrite Ed, Eb in Hch.
        fold base in Hch. destruct Hch as [Ubt Utd]. rewrite E.
        eapply under_prefix; [exact Ubt|]. unfold under in Utd.
        eapply startswith_trans; [|exact Utd]. apply startswith_app. }
      rewrite (Hfresh q Hu) in Hq. discriminate.
Qed.


(** ** A run that stops *)

(** The destination an invocation that returned has computed. *)
Lemma invoke_new_path (st st' : FileState) (w w' : World) :
  app_invoke st w = (Ok tt, st', w') ->
  exists v, is_token v = true /\ new_path st' = destination (filepath st) v.
Proof.
  intros H.
  apply invoke_returns in H as (st1 & w1 & st2 & H1 & H2 & ->).
  apply classify_returns in H1 as (v & Hv & -> & Hfs).
  apply move_returns in H2 as (s1 & s2 & s3 & M1 & M2 & M3 & -> & ->).
  exists v. split; [exact Hv|]. reflexivity.
Qed.

(** An invocation that returns on a regular file of the folder leaves the
    other regular files of the folder alone. *)
Lemma invoke_keeps_folder (folder g f : ustring) (st' : FileState) (w w' : World)
    (n : node) :
  app_invoke (fresh_record (join folder g)) w = (Ok tt, st', w') ->
  folder <> [] -> ~ In sep g -> ~ In sep f ->
  isfile (fs w) (join folder g) = true ->
  join folder f <> join folder g ->
  fs w (join folder f) = Some n ->
  fs w' (join folder f) = Some n.
Proof.
  intros H Hne Hg Hf Hsrc Hfg Hq.
  assert (exists c, fs w (join folder g) = Some (File c)) as [c Hc].
  { unfold isfile in Hsrc.
    destruct (fs w (join folder g)) as [[c|]|]; try discriminate. now exists c. }
  destruct (invoke_new_path _ _ _ _ H) as (v & Hv & En).
  change (filepath (fresh_record (join folder g))) with (join folder g) in En.
  pose proof (invoke_moves _ _ _ _ c H Hc) as (s2 & G & Es).
  cbv zeta in Es.
  change (filepath (fresh_record (join folder g))) with (join folder g) in Es.
  rewrite Es.
  rewrite !fs_set_other; [exact (grows_keeps _ _ _ _ _ G Hq)|exact Hfg|].
  intros E.
  pose proof (destination_not_in_folder folder g f v Hne Hg Hf Hv) as D.
  rewrite E, En in D.
  destruct (isdir (fs w) (destination (join folder g) v)).
  - destruct (join_shape (destination (join folder g) v)
                (shutil_basename (join folder g))) as [J|J];
      [apply no_sep_no_lead, basename_no_sep| |];
      rewrite J, startswith_app in D; discriminate.
  - rewrite startswith_refl in D. discriminate.
Qed.

(** A loop that stops at an invocation that raises: the files before it
    are no longer regular files of the folder, and the failing one and
    those after it are as they were. *)
Lemma run_files_raised (decode : list N -> ustring) (enable : bool)
    (folder : ustring) :
  folder <> [] ->
  forall files report summaries w e w',
    NoDup files ->
    Forall (fun f => ~ In sep f) files ->
    Forall (fun f => isfile (fs w) (join folder f) = true) files ->
    run_files decode enable folder files report summaries w = TabRaised e w' ->
    (forall q, ~ In sep q -> isfile (fs w) (join folder q) = false ->
               isfile (fs w') (join folder q) = false)
    /\ exists done f rest,
         files = done ++ f :: rest
         /\ (forall g, In g done -> isfile (fs w') (join folder g) = false)
         /\ (forall g, In g (f :: rest) ->
                       fs w' (join folder g) = fs w (join folder g)).
Proof.
  intros Hne. induction files as [|h rest IH];
    intros report summaries w e w' Hnd Hplain Hfiles H.
  - discriminate.
  - inversion Hnd as [|? ? Hnotin Hnd']; subst.
    inversion Hplain as [|? ? Hh Hplain']; subst.
    pose proof Hfiles as Hall.
    inversion Hfiles as [|? ? Hfile Hfiles']; subst.
    destruct (app_invoke (fresh_record (join folder h)) w)
      as [[[[]|e0] result] w1] eqn:Hi.
    + rewrite (run_files_step _ _ _ _ _ _ _ _ _ _ Hi) in H.
      assert (Keep : forall g, In g rest ->
                fs w1 (join folder g) = fs w (join folder g)).
      { intros g Hg. rewrite Forall_forall in Hfiles', Hplain'.
        pose proof (Hfiles' g Hg) as Fg. unfold isfile in Fg.
        destruct (fs w (join folder g)) as [n|] eqn:Eg; [|discriminate].
        apply (invoke_keeps_folder folder h g result w w1 n Hi); auto.
        intros E. apply (f_equal basename) in E.
        destruct (source_in_folder folder g Hne (Hplain' g Hg)) as [Bg _].
        destruct (source_in_folder folder h Hne Hh) as [Bh _].
        rewrite Bg, Bh in E. subst. contradiction. }
      assert (Hfiles1 : Forall (fun g => isfile (fs w1) (join folder g) = true) rest).
      { apply Forall_forall. intros g Hg. unfold isfile. rewrite (Keep g Hg).
        rewrite Forall_forall in Hfiles'. exact (Hfiles' g Hg). }
      destruct (IH _ _ _ _ _ Hnd' Hplain' Hfiles1 H)
        as (P0 & done & f & rest' & Es & D & R).
      split.
      * intros q Hq Hn. apply P0; [exact Hq|].
        eapply invoke_no_file_in_folder; eauto.
      * exists (h :: done), f, rest'. split; [now rewrite Es|]. split.
        -- intros g [<-|Hg]; [|now apply D].
           apply P0; [exact Hh|]. unfold isfile.
           destruct (invoke_for_loop _ _ _ _ Hi) as (_ & Hgone & _).
           now rewrite Hgone.
        -- intros g Hg. rewrite (R g Hg). apply Keep.
           rewrite Es. apply in_or_app. now right.
    + rewrite (run_files_stops _ _ _ _ _ _ _ _ _ _ _ Hi) in H.
      inversion H; subst.
      pose proof (invoke_raise_grows _ _ _ _ _ Hi) as G.
      split.
      * intros q _ Hn. now rewrite (grows_isfile _ _ _ _ G).
      * exists [], h, rest. split; [reflexivity|]. split; [intros g []|].
        intros g Hg. rewrite Forall_forall in Hall.
        pose proof (Hall g Hg) as Fg. unfold isfile in Fg.
        destruct (fs w (join folder g)) as [n|] eqn:Eg; [|discriminate].
        exact (grows_keeps _ _ _ _ _ G Eg).
Qed.

(** X14.  When an invocation raises in the middle of a run over a
    listing of different plain names, the regular files of the listing
    split in three: those before the failing one are no longer regular
    files of the folder, and the failing one and all those after it are
    where they were, unchanged. *)
Theorem batch_failure_leaves_rest (decode : list N -> ustring) (enable : bool)
    (folder : ustring) (listing : list ustring) (e : exn) (w w' : World) :
  isdir (fs w) folder = true ->
  NoDup listing -> Forall (fun g => ~ In sep g) listing ->
  start_organizing decode enable folder listing w = TabRaised e w' ->
  let files := filter (fun f => isfile (fs w) (join folder f)) listing in
  exists done f rest,
    files = done ++ f :: rest
    /\ (forall g, In g done -> isfile (fs w') (join folder g) = false)
    /\ (forall g, In g (f :: rest) ->
                  fs w' (join folder g) = fs w (join folder g)).
Proof.
  intros Hd Hnd Hplain H. unfold start_organizing in H.
  destruct (is_empty folder) eqn:Ee; [discriminate|].
  assert (Hne : folder <> []) by (intros ->; discriminate).
  destruct (negb (path_exists (fs w) folder)); [discriminate|].
  rewrite Hd in H. cbn [orb negb] in H. cbv zeta in *.
  set (files := filter (fun f => isfile (fs w) (join folder f)) listing) in *.
  apply (run_files_raised decode enable folder Hne) in H as [_ H]; [exact H| | |].
  - now apply NoDup_filter.
  - apply Forall_forall. intros f Hin. unfold files in Hin.
    apply filter_In in Hin as [Hin _].
    rewrite Forall_forall in Hplain. now apply Hplain.
  - apply Forall_forall. intros f Hin. unfold files in Hin.
    now apply filter_In in Hin.
Qed.


(** ** The check of the folder *)

(** The loop never reports an invalid folder. *)
Lemma run_files_not_invalid (decode : list N -> ustring) (enable : bool)
    (folder : ustring) :
  forall files report summaries w,
    run_files decode enable folder files report summaries w <> TabInvalid.
Proof.
  induction files as [|f rest IH]; intros report summaries w; [discriminate|].
  cbn [run_files].
  destruct (app_invoke (fresh_record (join folder f)) w) as [[[[]|e] result] w1];
    [|discriminate].
  destruct (summarize decode enable f (join folder f) w1) as [lines w2].
  apply IH.
Qed.

(** X15.  The handler rejects a folder path as invalid exactly when it is
    empty or names nothing.  A path that names a regular file is let
    through by that check: listing it raises, before any file is looked
    at, and the world is as it was. *)
Theorem folder_check (decode : list N -> ustring) (enable : bool)
    (folder : ustring) (listing : list ustring) (w : World) :
  (start_organizing decode enable folder listing w = TabInvalid
   <-> folder = [] \/ fs w folder = None)
  /\ (folder <> [] -> isfile (fs w) folder = true ->
      start_organizing decode enable folder listing w
      = TabRaised NotADirectoryError w).
Proof.
  unfold start_organizing, path_exists, isdir, isfile. split; [split|].
  - destruct folder as [|a folder]; [now left|]. cbn [is_empty orb].
    destruct (fs w (a :: folder)) as [[c|]|]; cbn [negb]; intros H;
      [discriminate| |now right].
    now apply run_files_not_invalid in H.
  - intros [->|E]; [reflexivity|]. rewrite E. cbn [negb].
    now rewrite orb_true_r.
  - intros Hne Hf. destruct folder as [|a folder]; [contradiction|].
    cbn [is_empty orb].
    destruct (fs w (a :: folder)) as [[c|]|]; try discriminate. reflexivity.
Qed.

End Pipeline.

(** ** Runs on the sample worlds

    The parameters are set to [ascii_lower] and [ascii_isspace], which
    meet the two hypotheses by definition. *)

(** C1 at "in/report.pdf": the extension "pdf" follows the last '.', it is
    a key of the table, and the category is documents with the world
    untouched. *)
Lemma classify_known_extension_run :
  exists st',
    classify_file ascii_lower ascii_isspace (fresh_record (u "in/report.pdf")) inbox
      = (Ok tt, st', inbox)
    /\ category st' = u "documents".
Proof.
  refine (proj1 (classify_known_extension ascii_lower ascii_isspace
                   (fun s _ => eq_refl))
            (fresh_record (u "in/report.pdf")) inbox
            (u "report") (u "pdf") (u "documents") _ _ _).
  - reflexivity.
  - vm_compute. intuition discriminate.
  - reflexivity.
Defined.

(** C2 at the bare name "pdf". *)
Lemma classify_bare_name_run :
  ~ In dot (u "pdf")
  /\ extension ascii_lower (u "pdf") = u "pdf"
  /\ forall w,
       classify_file ascii_lower ascii_isspace (fresh_record (u "pdf")) w =
         (Ok tt,
          mkState (u "pdf") (u "documents") []
            [u "Classified pdf as documents"],
          w).
Proof.
  exact (classify_bare_name_hits_table ascii_lower ascii_isspace
           (fun s _ => eq_refl)).
Defined.

(** C3 at "in/report.pdf": the file leaves [in] for
    [in/organized/documents]. *)
Lemma invoke_relocates_run :
  exists st' w',
    app_invoke ascii_lower ascii_isspace (fresh_record (u "in/report.pdf")) inbox
      = (Ok tt, st', w')
    /\ new_path st' = u "in/organized/documents/report.pdf"
    /\ fs w' (u "in/report.pdf") = None
    /\ fs w' (u "in/organized/documents/report.pdf") = Some (File [37; 80; 68; 70]).
Proof.
  pose (out := app_invoke ascii_lower ascii_isspace
                 (fresh_record (u "in/report.pdf")) inbox).
  assert (H : app_invoke ascii_lower ascii_isspace
                (fresh_record (u "in/report.pdf")) inbox
              = (Ok tt, snd (fst out), snd out)) by (vm_compute; reflexivity).
  exists (snd (fst out)), (snd out). split; [exact H|].
  destruct (invoke_relocates ascii_lower ascii_isspace _ _ _ _ H) as (_ & _ & _ & Hm).
  assert (Hn : new_path (snd (fst out)) = u "in/organized/documents/report.pdf")
    by (vm_compute; reflexivity).
  split; [exact Hn|].
  rewrite <- Hn.
  apply (Hm [37; 80; 68; 70]); vm_compute; reflexivity.
Defined.

(** C3 fails on [taken]: the invocation returns, [new_path] is
    [in/organized/documents/a.txt], and that spelling names the directory
    that was there; the file is inside it. *)
Lemma moved_into_existing_directory :
  exists st' w',
    app_invoke ascii_lower ascii_isspace (fresh_record (u "in/a.txt")) taken
      = (Ok tt, st', w')
    /\ fs taken (u "in/a.txt") = Some (File [104; 105])
    /\ new_path st' = u "in/organized/documents/a.txt"
    /\ fs w' (u "in/a.txt") = None
    /\ fs w' (new_path st') = Some Dir
    /\ fs w' (u "in/organized/documents/a.txt/a.txt") = Some (File [104; 105]).
Proof.
  pose (out := app_invoke ascii_lower ascii_isspace
                 (fresh_record (u "in/a.txt")) taken).
  exists (snd (fst out)), (snd out).
  repeat split; vm_compute; reflexivity.
Qed.

(** C4 at "in/Makefile": the reply "  Code! " becomes the token "code". *)
Lemma classify_category_token_run :
  exists st' w',
    classify_file ascii_lower ascii_isspace (fresh_record (u "in/Makefile")) inbox
      = (Ok tt, st', w')
    /\ category st' = u "code"
    /\ category st' <> []
    /\ Forall (fun c => allowed c = true) (category st').
Proof.
  pose (out := classify_file ascii_lower ascii_isspace
                 (fresh_record (u "in/Makefile")) inbox).
  assert (H : classify_file ascii_lower ascii_isspace
                (fresh_record (u "in/Makefile")) inbox
              = (Ok tt, snd (fst out), snd out)) by (vm_compute; reflexivity).
  exists (snd (fst out)), (snd out). split; [exact H|].
  split; [vm_compute; reflexivity|].
  exact (proj1 (classify_category_token ascii_lower ascii_isspace _ _ _ _ H)).
Defined.

(** C5 at the reply " Disk_Images-2 !! ". *)
Lemma clean_category_idempotent_run :
  clean_category ascii_lower ascii_isspace (u " Disk_Images-2 !! ") = u "disk_images-2"
  /\ clean_category ascii_lower ascii_isspace
       (clean_category ascii_lower ascii_isspace (u " Disk_Images-2 !! "))
     = clean_category ascii_lower ascii_isspace (u " Disk_Images-2 !! ").
Proof.
  split; [vm_compute; reflexivity|].
  exact (clean_category_idempotent ascii_lower ascii_isspace
           (fun s _ => eq_refl) (fun c _ => eq_refl) (u " Disk_Images-2 !! ")).
Defined.

(** C6 at "in/report.pdf": three entries from an empty log. *)
Lemma logs_grow_run :
  exists st' w',
    app_invoke ascii_lower ascii_isspace (fresh_record (u "in/report.pdf")) inbox
      = (Ok tt, st', w')
    /\ (3 <= List.length (logs st'))%nat.
Proof.
  pose (out := app_invoke ascii_lower ascii_isspace
                 (fresh_record (u "in/report.pdf")) inbox).
  assert (H : app_invoke ascii_lower ascii_isspace
                (fresh_record (u "in/report.pdf")) inbox
              = (Ok tt, snd (fst out), snd out)) by (vm_compute; reflexivity).
  exists (snd (fst out)), (snd out). split; [exact H|].
  exact (proj2 (proj2 (proj2 (proj2
           (logs_grow_per_stage ascii_lower ascii_isspace))))
           (fresh_record (u "in/report.pdf")) inbox _ _ eq_refl H).
Defined.

(** C7 at "in/a.txt" on [blocked]: classify returns, the move raises on
    the regular file [in/organized/documents], and the record is the one
    classify left. *)
Lemma move_failure_run :
  exists st1 w1 e w2,
    classify_file ascii_lower ascii_isspace (fresh_record (u "in/a.txt")) blocked
      = (Ok tt, st1, w1)
    /\ move_file st1 w1 = (Raise e, st1, w2)
    /\ category st1 = u "documents"
    /\ new_path st1 = []
    /\ logs st1 = [u "Classified a.txt as documents"].
Proof.
  pose (c := classify_file ascii_lower ascii_isspace
               (fresh_record (u "in/a.txt")) blocked).
  pose (m := move_file (snd (fst c)) (snd c)).
  assert (H1 : classify_file ascii_lower ascii_isspace
                 (fresh_record (u "in/a.txt")) blocked
               = (Ok tt, snd (fst c), snd c)) by (vm_compute; reflexivity).
  assert (H2 : move_file (snd (fst c)) (snd c)
               = (Raise FileExistsError, snd (fst m), snd m))
    by (vm_compute; reflexivity).
  destruct (move_failure_keeps_classified_record ascii_lower ascii_isspace
              _ _ _ _ _ _ _ _ H1 H2) as (E & _ & Hn & Hl & _).
  exists (snd (fst c)), (snd c), FileExistsError, (snd m).
  split; [exact H1|]. split; [rewrite <- E at 2; exact H2|].
  split; [vm_compute; reflexivity|].
  split; [rewrite <- E, Hn; reflexivity|].
  rewrite <- E, Hl. vm_compute. reflexivity.
Defined.

(** C7 fails on [blocked]: the move of [a.txt] raises and the batch ends
    there.  [b.png], which an invocation of its own would move, is never
    submitted: it is where it was and nothing is logged. *)
Lemma one_failure_ends_batch :
  exists w',
    organize ascii_lower ascii_isspace no_after (u "in")
      [u "a.txt"; u "b.png"; u "organized"] blocked
      = Aborted FileExistsError [] w'
    /\ fs w' (u "in/b.png") = Some (File [137; 80; 78; 71])
    /\ fs w' (u "in/organized/images/b.png") = None
    /\ exists st2 w2,
         app_invoke ascii_lower ascii_isspace (fresh_record (u "in/b.png")) blocked
           = (Ok tt, st2, w2)
         /\ fs w2 (u "in/organized/images/b.png") = Some (File [137; 80; 78; 71]).
Proof.
  pose (a := app_invoke ascii_lower ascii_isspace (fresh_record (u "in/a.txt")) blocked).
  pose (b := app_invoke ascii_lower ascii_isspace (fresh_record (u "in/b.png")) blocked).
  exists (snd a). repeat split; try (vm_compute; reflexivity).
  exists (snd (fst b)), (snd b). split; vm_compute; reflexivity.
Qed.

(** C8 at "in/ghost.pdf", which names nothing in [inbox]: classify
    returns, and the invocation raises in the move stage. *)
Lemma missing_path_run :
  exists st1 w1 e w2,
    classify_file ascii_lower ascii_isspace (fresh_record (u "in/ghost.pdf")) inbox
      = (Ok tt, st1, w1)
    /\ app_invoke ascii_lower ascii_isspace (fresh_record (u "in/ghost.pdf")) inbox
       = (Raise e, st1, w2)
    /\ logs st1 = [u "Classified ghost.pdf as documents"].
Proof.
  pose (c := classify_file ascii_lower ascii_isspace
               (fresh_record (u "in/ghost.pdf")) inbox).
  assert (H1 : classify_file ascii_lower ascii_isspace
                 (fresh_record (u "in/ghost.pdf")) inbox
               = (Ok tt, snd (fst c), snd c)) by (vm_compute; reflexivity).
  destruct (proj1 (proj2 (missing_path_rejected_by_move ascii_lower ascii_isspace))
              (fresh_record (u "in/ghost.pdf")) inbox _ _ eq_refl H1)
    as (e & w2 & Hi & _ & _ & Hl).
  exists (snd (fst c)), (snd c), e, w2.
  split; [exact H1|]. split; [exact Hi|].
  rewrite Hl. vm_compute. reflexivity.
Defined.

(** C8 fails on [inbox]: "in/ghost.pdf" names nothing, yet the classify
    stage is entered and completes (category documents, one log entry),
    the directories are made, and only then does the move raise.  It fails
    on [with_folder] too: "in/notes.txt" names a directory, and the
    invocation returns, having classified it and moved it with what it
    holds. *)
Lemma missing_path_is_classified :
  (fs inbox (u "in/ghost.pdf") = None
   /\ exists st' w',
        app_invoke ascii_lower ascii_isspace (fresh_record (u "in/ghost.pdf")) inbox
          = (Raise FileNotFoundError, st', w')
        /\ category st' = u "documents"
        /\ logs st' = [u "Classified ghost.pdf as documents"]
        /\ fs inbox (u "in/organized/documents") = None
        /\ fs w' (u "in/organized/documents") = Some Dir)
  /\ (isfile (fs with_folder) (u "in/notes.txt") = false
      /\ exists st' w',
           app_invoke ascii_lower ascii_isspace (fresh_record (u "in/notes.txt"))
             with_folder = (Ok tt, st', w')
           /\ category st' = u "documents"
           /\ List.length (logs st') = 3%nat
           /\ fs w' (u "in/notes.txt") = None
           /\ fs w' (u "in/organized/documents/notes.txt") = Some Dir
           /\ fs w' (u "in/organized/documents/notes.txt/page1") = Some (File [49])).
Proof.
  pose (out := app_invoke ascii_lower ascii_isspace
                 (fresh_record (u "in/ghost.pdf")) inbox).
  pose (out2 := app_invoke ascii_lower ascii_isspace
                  (fresh_record (u "in/notes.txt")) with_folder).
  split; (split; [reflexivity|]).
  - exists (snd (fst out)), (snd out).
    repeat split; vm_compute; reflexivity.
  - exists (snd (fst out2)), (snd out2).
    repeat split; vm_compute; reflexivity.
Qed.

(** C9 at "in/Makefile" when the service is down. *)
Lemma oracle_failure_run :
  exists w',
    app_invoke ascii_lower ascii_isspace (fresh_record (u "in/Makefile")) inbox_offline
      = (Raise LLMError, fresh_record (u "in/Makefile"), w')
    /\ fs w' = fs inbox_offline.
Proof.
  eexists. split.
  - refine (proj1 (proj2 (oracle_failure_propagates ascii_lower ascii_isspace
                            (fresh_record (u "in/Makefile")) inbox_offline _ _))).
    + vm_compute. reflexivity.
    + reflexivity.
  - reflexivity.
Defined.

(** C9 fails on [inbox_offline]: the call for "in/Makefile" raises, and
    the invocation ends with the record untouched: the category is empty,
    no default was put in, and the log holds no entry at all. *)
Lemma oracle_failure_is_silent :
  exists st' w',
    app_invoke ascii_lower ascii_isspace (fresh_record (u "in/Makefile")) inbox_offline
      = (Raise LLMError, st', w')
    /\ category st' = []
    /\ logs st' = []
    /\ List.length (llm_calls w') = 1%nat.
Proof.
  pose (out := app_invoke ascii_lower ascii_isspace
                 (fresh_record (u "in/Makefile")) inbox_offline).
  exists (snd (fst out)), (snd out).
  repeat split; vm_compute; reflexivity.
Qed.

(** C10 at "in/report.pdf": the three entries. *)
Lemma invoke_logs_exact_run :
  exists st' w',
    app_invoke ascii_lower ascii_isspace (fresh_record (u "in/report.pdf")) inbox
      = (Ok tt, st', w')
    /\ logs st' =
         [ u "Classified report.pdf as documents";
           u "Moved file to in/organized/documents/report.pdf";
           u "Completed file processing." ].
Proof.
  pose (out := app_invoke ascii_lower ascii_isspace
                 (fresh_record (u "in/report.pdf")) inbox).
  assert (H : app_invoke ascii_lower ascii_isspace
                (fresh_record (u "in/report.pdf")) inbox
              = (Ok tt, snd (fst out), snd out)) by (vm_compute; reflexivity).
  exists (snd (fst out)), (snd out). split; [exact H|].
  rewrite (invoke_logs_exact ascii_lower ascii_isspace
             (fresh_record (u "in/report.pdf")) _ inbox _ eq_refl H).
  vm_compute. reflexivity.
Defined.

(** ** Runs for the further properties *)

(** X1 at the reply "  Images " . *)
Lemma clean_category_padded_label_run :
  clean_category ascii_lower ascii_isspace (u "  " ++ u "Images" ++ u " ")
  = u "images".
Proof.
  refine (clean_category_padded_label ascii_lower ascii_isspace
            (fun s _ => eq_refl) (fun c _ => eq_refl)
            (u "  ") (u "Images") (u " ") _ _ _).
  - repeat constructor.
  - repeat constructor.
  - vm_compute. reflexivity.
Defined.

(** X2 at a reply of three spaces. *)
Lemma clean_category_blank_run :
  clean_category ascii_lower ascii_isspace (u "   ") = u "others".
Proof.
  refine (clean_category_blank ascii_lower ascii_isspace
            (fun s _ => eq_refl) (u "   ") _).
  repeat constructor.
Defined.

(** X3 at "in/Makefile": one prompt, naming Makefile. *)
Lemma invoke_prompts_run :
  exists st' w',
    app_invoke ascii_lower ascii_isspace (fresh_record (u "in/Makefile")) inbox
      = (Ok tt, st', w')
    /\ llm_calls w' = [classify_prompt (u "Makefile")].
Proof.
  pose (out := app_invoke ascii_lower ascii_isspace
                 (fresh_record (u "in/Makefile")) inbox).
  assert (H : app_invoke ascii_lower ascii_isspace
                (fresh_record (u "in/Makefile")) inbox
              = (Ok tt, snd (fst out), snd out)) by (vm_compute; reflexivity).
  exists (snd (fst out)), (snd out). split; [exact H|].
  rewrite (invoke_prompts ascii_lower ascii_isspace _ _ _ _ _ H).
  vm_compute. reflexivity.
Defined.

(** X4 at "in/notes.", a name that ends in '.'. *)
Lemma classify_empty_extension_run :
  extension ascii_lower (basename (u "in/notes.")) = []
  /\ exists st' w',
       classify_file ascii_lower ascii_isspace (fresh_record (u "in/notes.")) inbox
         = (Ok tt, st', w')
       /\ category st' = clean_category ascii_lower ascii_isspace (u "  Code! ")
       /\ llm_calls w' = llm_calls inbox ++ [classify_prompt (u "notes.")].
Proof.
  refine (classify_empty_extension ascii_lower ascii_isspace
            (fun s _ => eq_refl)
            (fresh_record (u "in/notes.")) inbox (u "  Code! ") _ _).
  - right. exists (u "notes"). reflexivity.
  - reflexivity.
Defined.

(** X5 at "in/a.txt" on [blocked]: the move raises and the file is where
    it was. *)
Lemma invoke_failure_keeps_files_run :
  exists e st' w',
    app_invoke ascii_lower ascii_isspace (fresh_record (u "in/a.txt")) blocked
      = (Raise e, st', w')
    /\ fs w' (u "in/a.txt") = Some (File [104; 105]).
Proof.
  pose (out := app_invoke ascii_lower ascii_isspace
                 (fresh_record (u "in/a.txt")) blocked).
  assert (H : app_invoke ascii_lower ascii_isspace
                (fresh_record (u "in/a.txt")) blocked
              = (Raise FileExistsError, snd (fst out), snd out))
    by (vm_compute; reflexivity).
  exists FileExistsError, (snd (fst out)), (snd out). split; [exact H|].
  apply (proj2 (proj2 (invoke_failure_keeps_files ascii_lower ascii_isspace
                         _ _ _ _ _ H)) [104; 105]).
  reflexivity.
Defined.

(** X6 at "in/a.txt" on [taken]: the file lands inside the directory that
    had the destination's name. *)
Lemma invoke_keeps_content_run :
  exists st' w',
    app_invoke ascii_lower ascii_isspace (fresh_record (u "in/a.txt")) taken
      = (Ok tt, st', w')
    /\ fs w' (u "in/a.txt") = None
    /\ fs w' (u "in/organized/documents/a.txt/a.txt") = Some (File [104; 105]).
Proof.
  pose (out := app_invoke ascii_lower ascii_isspace
                 (fresh_record (u "in/a.txt")) taken).
  assert (H : app_invoke ascii_lower ascii_isspace
                (fresh_record (u "in/a.txt")) taken
              = (Ok tt, snd (fst out), snd out)) by (vm_compute; reflexivity).
  exists (snd (fst out)), (snd out). split; [exact H|].
  destruct (invoke_keeps_content ascii_lower ascii_isspace _ _ _ _
              [104; 105] H eq_refl) as (Hg & Hl & _).
  split; [exact Hg|].
  assert (E : u "in/organized/documents/a.txt/a.txt"
              = (if isdir (fs taken) (new_path (snd (fst out)))
                 then join (new_path (snd (fst out)))
                        (shutil_basename (filepath (fresh_record (u "in/a.txt"))))
                 else new_path (snd (fst out))))
    by (vm_compute; reflexivity).
  rewrite E. exact Hl.
Defined.

(** X7 at "in/report.pdf" on [inbox]: all the conditions hold, and the
    invocation goes through. *)
Lemma invoke_succeeds_run :
  exists st' w',
    app_invoke ascii_lower ascii_isspace (fresh_record (u "in/report.pdf")) inbox
      = (Ok tt, st', w')
    /\ new_path st' = u "in/organized/documents/report.pdf"
    /\ fs w' (u "in/report.pdf") = None
    /\ fs w' (u "in/organized/documents/report.pdf") = Some (File [37; 80; 68; 70])
    /\ isdir (fs w') (u "in/organized/documents") = true.
Proof.
  pose (c := classify_file ascii_lower ascii_isspace
               (fresh_record (u "in/report.pdf")) inbox).
  assert (H1 : classify_file ascii_lower ascii_isspace
                 (fresh_record (u "in/report.pdf")) inbox
               = (Ok tt, snd (fst c), snd c)) by (vm_compute; reflexivity).
  refine (invoke_succeeds ascii_lower ascii_isspace _ _ _ _
            [37; 80; 68; 70] H1 _ _ _ _ _).
  - reflexivity.
  - right. reflexivity.
  - reflexivity.
  - reflexivity.
  - reflexivity.
Defined.

(** X8 at "in/report.pdf" on [inbox]. *)
Lemma new_path_layout_run :
  exists st' w',
    app_invoke ascii_lower ascii_isspace (fresh_record (u "in/report.pdf")) inbox
      = (Ok tt, st', w')
    /\ basename (new_path st') = u "report.pdf"
    /\ basename (dirname (new_path st')) = category st'
    /\ basename (dirname (dirname (new_path st'))) = u "organized"
    /\ dirname (dirname (dirname (new_path st'))) = u "in".
Proof.
  pose (out := app_invoke ascii_lower ascii_isspace
                 (fresh_record (u "in/report.pdf")) inbox).
  assert (H : app_invoke ascii_lower ascii_isspace
                (fresh_record (u "in/report.pdf")) inbox
              = (Ok tt, snd (fst out), snd out)) by (vm_compute; reflexivity).
  exists (snd (fst out)), (snd out). split; [exact H|].
  exact (new_path_layout ascii_lower ascii_isspace _ _ _ _ H).
Defined.

(** X12 at "notes.txt" on [desk]. *)
Lemma new_path_of_bare_name_run :
  exists st' w',
    app_invoke ascii_lower ascii_isspace (fresh_record (u "notes.txt")) desk
      = (Ok tt, st', w')
    /\ new_path st' = u "organized/documents/notes.txt".
Proof.
  pose (out := app_invoke ascii_lower ascii_isspace
                 (fresh_record (u "notes.txt")) desk).
  assert (H : app_invoke ascii_lower ascii_isspace
                (fresh_record (u "notes.txt")) desk
              = (Ok tt, snd (fst out), snd out)) by (vm_compute; reflexivity).
  exists (snd (fst out)), (snd out). split; [exact H|].
  rewrite (new_path_of_bare_name ascii_lower ascii_isspace _ _ _ _ H).
  - vm_compute. reflexivity.
  - vm_compute. intuition discriminate.
Defined.

(** X9 on [inbox], listing both files: six entries. *)
Lemma batch_report_shape_run :
  exists report summaries w',
    start_organizing ascii_lower ascii_isspace decode_ascii true (u "in")
      [u "report.pdf"; u "Makefile"] inbox = TabDone report summaries w'
    /\ List.length report = 6%nat.
Proof.
  pose (t := start_organizing ascii_lower ascii_isspace decode_ascii true (u "in")
               [u "report.pdf"; u "Makefile"] inbox).
  assert (H : start_organizing ascii_lower ascii_isspace decode_ascii true (u "in")
                [u "report.pdf"; u "Makefile"] inbox
              = TabDone (session_logs t) (session_summaries t) (world_after inbox t))
    by (vm_compute; reflexivity).
  exists (session_logs t), (session_summaries t), (world_after inbox t).
  split; [exact H|].
  rewrite (proj2 (batch_report_shape ascii_lower ascii_isspace _ _ _ _ _ _ _ _ H)).
  reflexivity.
Defined.

(** X10 on [inbox], summaries enabled: two lines, neither a summary, and
    the one prompt is the classification of Makefile. *)
Lemma batch_summaries_unreadable_run :
  exists report summaries w',
    start_organizing ascii_lower ascii_isspace decode_ascii true (u "in")
      [u "report.pdf"; u "Makefile"] inbox = TabDone report summaries w'
    /\ summaries = [unreadable (u "report.pdf"); unreadable (u "Makefile")]
    /\ llm_calls w' = [classify_prompt (u "Makefile")].
Proof.
  pose (t := start_organizing ascii_lower ascii_isspace decode_ascii true (u "in")
               [u "report.pdf"; u "Makefile"] inbox).
  assert (H : start_organizing ascii_lower ascii_isspace decode_ascii true (u "in")
                [u "report.pdf"; u "Makefile"] inbox
              = TabDone (session_logs t) (session_summaries t) (world_after inbox t))
    by (vm_compute; reflexivity).
  exists (session_logs t), (session_summaries t), (world_after inbox t).
  split; [exact H|].
  destruct (batch_summaries_unreadable ascii_lower ascii_isspace _ _ _ _ _ _ _ _ H)
    as (Hs & Hc).
  split.
  - rewrite Hs. vm_compute. reflexivity.
  - rewrite Hc. vm_compute. reflexivity.
Defined.

(** X11 on [inbox]: after the run neither name is a regular file of the
    folder. *)
Lemma batch_empties_folder_run :
  exists report summaries w',
    start_organizing ascii_lower ascii_isspace decode_ascii false (u "in")
      [u "report.pdf"; u "Makefile"] inbox = TabDone report summaries w'
    /\ filter (fun f => isfile (fs w') (join (u "in") f))
         [u "report.pdf"; u "Makefile"] = [].
Proof.
  pose (t := start_organizing ascii_lower ascii_isspace decode_ascii false (u "in")
               [u "report.pdf"; u "Makefile"] inbox).
  assert (H : start_organizing ascii_lower ascii_isspace decode_ascii false (u "in")
                [u "report.pdf"; u "Makefile"] inbox
              = TabDone (session_logs t) (session_summaries t) (world_after inbox t))
    by (vm_compute; reflexivity).
  exists (session_logs t), (session_summaries t), (world_after inbox t).
  split; [exact H|].
  refine (proj2 (batch_empties_folder ascii_lower ascii_isspace _ _ _ _ _ _ _ _ _ H)).
  repeat constructor; vm_compute; intuition discriminate.
Defined.

(** X13 on [inbox], which holds nothing named "organized": the handler
    runs to its end over both files. *)
Lemma batch_completes_run :
  exists report summaries w',
    start_organizing ascii_lower ascii_isspace decode_ascii true (u "in")
      [u "report.pdf"; u "Makefile"] inbox = TabDone report summaries w'
    /\ (exists v, is_token v = true
                  /\ fs w' (join (join (u "in/organized") v) (u "Makefile"))
                     = Some (File [97; 108; 108; 58])).
Proof.
  destruct (batch_completes ascii_lower ascii_isspace decode_ascii true (u "in")
              [u "report.pdf"; u "Makefile"] inbox)
    as (report & summaries & w' & Hrun & Hmoved & _).
  - discriminate.
  - right. reflexivity.
  - reflexivity.
  - repeat constructor; simpl; intuition discriminate.
  - repeat constructor; vm_compute; intuition discriminate.
  - intros calls p. discriminate.
  - reflexivity.
  - intros q Hu. unfold inbox. cbn [fs store_of].
    destruct (ueqb q (u "in")) eqn:E1;
      [apply ueqb_eq in E1; subst q; vm_compute in Hu; discriminate|].
    destruct (ueqb q (u "in/report.pdf")) eqn:E2;
      [apply ueqb_eq in E2; subst q; vm_compute in Hu; discriminate|].
    destruct (ueqb q (u "in/Makefile")) eqn:E3;
      [apply ueqb_eq in E3; subst q; vm_compute in Hu; discriminate|].
    reflexivity.
  - exists report, summaries, w'. split; [exact Hrun|].
    apply (Hmoved (u "Makefile") [97; 108; 108; 58]).
    + right. left. reflexivity.
    + reflexivity.
Defined.

(** X14 on [blocked], listing b.png before a.txt: b.png is moved, the
    invocation on a.txt raises, and a.txt is where it was. *)
Lemma batch_failure_leaves_rest_run :
  exists e w',
    start_organizing ascii_lower ascii_isspace decode_ascii true (u "in")
      [u "b.png"; u "a.txt"] blocked = TabRaised e w'
    /\ fs w' (u "in/a.txt") = Some (File [104; 105]).
Proof.
  pose (t := start_organizing ascii_lower ascii_isspace decode_ascii true (u "in")
               [u "b.png"; u "a.txt"] blocked).
  assert (H : start_organizing ascii_lower ascii_isspace decode_ascii true (u "in")
                [u "b.png"; u "a.txt"] blocked
              = TabRaised FileExistsError (world_after blocked t))
    by (vm_compute; reflexivity).
  exists FileExistsError, (world_after blocked t). split; [exact H|].
  assert (Hd : isdir (fs blocked) (u "in") = true) by reflexivity.
  assert (Hnd : NoDup [u "b.png"; u "a.txt"])
    by (repeat constructor; simpl; intuition discriminate).
  assert (Hplain : Forall (fun g => ~ In sep g) [u "b.png"; u "a.txt"])
    by (repeat constructor; vm_compute; intuition discriminate).
  destruct (batch_failure_leaves_rest ascii_lower ascii_isspace decode_ascii true
              (u "in") [u "b.png"; u "a.txt"] FileExistsError blocked
              (world_after blocked t) Hd Hnd Hplain H)
    as (done & f & rest & Es & D & R).
  assert (Hin : In (u "a.txt") (done ++ f :: rest)).
  { rewrite <- Es. vm_compute. right. left. reflexivity. }
  apply in_app_or in Hin as [Hin|Hin].
  - apply D in Hin. vm_compute in Hin. discriminate.
  - change (u "in/a.txt") with (join (u "in") (u "a.txt")).
    rewrite (R _ Hin). reflexivity.
Defined.

(** X15 at the path of a regular file of [inbox]. *)
Lemma folder_check_run :
  start_organizing ascii_lower ascii_isspace decode_ascii true (u "in/report.pdf")
    [] inbox = TabRaised NotADirectoryError inbox.
Proof.
  apply (proj2 (folder_check ascii_lower ascii_isspace decode_ascii true
                  (u "in/report.pdf") [] inbox)).
  - discriminate.
  - reflexivity.
Defined.
